(** * optcg: the card-list generator [scrape.py], embedded and verified

    The generator has two stages.  The Collector ([fetch_all_cards] with its
    inner [add_cards]) gathers raw records from a handful of endpoints,
    drops alternate-art variants and de-duplicates by [card_set_id].  The
    Transformer ([convert_to_tcg_arena]) rewrites every raw record into the
    TCG Arena shape.  [main] glues both together and decides the exit status.

    The embedding is shallow: Python values are an inductive type, a Python
    exception is the [Raise] branch of a result type, the mutable locals of
    the Collector are a record threaded through the loop, and dictionaries
    built by the program are insertion-ordered association lists. *)

From Stdlib Require Import ZArith String Ascii DecimalString DecimalPos.
From Stdlib Require Import Floats.SpecFloat.
From stdpp Require Import gmap strings list fin_maps.

Set Warnings "-register-all".
Open Scope Z_scope.

(** ** Values

    What [json.loads] hands to the program: [None], booleans, unbounded
    integers, IEEE doubles (as [spec_float], so that NaN and the infinities
    that [json] accepts are present), strings, lists and objects.  Strings
    are byte strings: the UTF-8 text, where a lone surrogate (which a JSON
    escape can produce, and which UTF-8 proper refuses) has the three bytes
    the same scheme gives it.  Substring search, [rsplit], equality and
    order agree with Python's on them. *)

Inductive value :=
| VNone
| VBool (b : bool)
| VInt (n : Z)
| VFloat (f : spec_float)
| VStr (s : string)
| VList (l : list value)
| VDict (d : gmap string value).

(** A raw record is a JSON object: string keys, loosely typed fields. *)
Abbreviation raw := (gmap string value).

(** The exceptions this program can meet. *)
Inductive exn := TypeError | ValueError | OverflowError | AttributeError.

Inductive res (A : Type) :=
| Ok (a : A)
| Raise (e : exn).
Arguments Ok {A} a.
Arguments Raise {A} e.

(** Sequencing: an exception in [m] skips the rest. *)
Definition bind {A B} (m : res A) (k : A → res B) : res B :=
  match m with
  | Ok a => k a
  | Raise e => Raise e
  end.

Notation "x <- m ;; k" := (bind m (fun x => k))
  (at level 100, m at next level, right associativity).

(** [for x in l: s = body(s, x)], stopping at the first exception. *)
Fixpoint for_each {S A} (body : S → A → res S) (s : S) (l : list A) : res S :=
  match l with
  | [] => Ok s
  | x :: l' => s' <- body s x;; for_each body s' l'
  end.

(** ** The Python primitives the program uses *)

Module Py.

(** Truth value of an object ([if x], [not x], [x or y]). *)
Definition truthy (v : value) : bool :=
  match v with
  | VNone => false
  | VBool b => b
  | VInt n => negb (n =? 0)
  | VFloat (S754_zero _) => false
  | VFloat _ => true
  | VStr s => negb (String.eqb s "")
  | VList l => match l with [] => false | _ => true end
  | VDict d => negb (Nat.eqb (size d) 0)
  end.

(** [x or y] *)
Definition or (x y : value) : value := if truthy x then x else y.

(** [d.get(k, default)] and [d.get(k)] *)
Definition get (d : raw) (k : string) (default : value) : value :=
  match d !! k with Some v => v | None => default end.

Definition get_none (d : raw) (k : string) : value := get d k VNone.

(** The number a bool, int or finite float denotes, as [m * 2^e]. *)
Definition number (v : value) : option (Z * Z) :=
  match v with
  | VBool b => Some (Z.b2z b, 0)
  | VInt n => Some (n, 0)
  | VFloat (S754_zero _) => Some (0, 0)
  | VFloat (S754_finite s m e) => Some (if s then Z.neg m else Z.pos m, e)
  | _ => None
  end.

Definition number_eqb (x y : Z * Z) : bool :=
  let k := Z.min x.2 y.2 in
  (x.1 * 2 ^ (x.2 - k) =? y.1 * 2 ^ (y.2 - k)).

(** Equality as a set, a dict or [list.__contains__] tests it (identity
    or [==]) when at least one side is not a container; that is every
    comparison this program makes.  Numbers compare by value across bool,
    int and float.  [json] yields one NaN object, so NaN meets itself by
    identity. *)
Definition eqb (a b : value) : bool :=
  match number a, number b with
  | Some x, Some y => number_eqb x y
  | None, None =>
      match a, b with
      | VNone, VNone => true
      | VStr s, VStr t => String.eqb s t
      | VFloat (S754_infinity s), VFloat (S754_infinity t) => Bool.eqb s t
      | VFloat S754_nan, VFloat S754_nan => true
      | _, _ => false
      end
  | _, _ => false
  end.

(** Lists and dicts have no hash. *)
Definition hashable (v : value) : bool :=
  match v with
  | VList _ | VDict _ => false
  | _ => true
  end.

(** [x in s] for a set [s], kept as the list of its members. *)
Definition set_mem (x : value) (s : list value) : res bool :=
  if hashable x then Ok (existsb (eqb x) s) else Raise TypeError.

(** [p in s] for strings: [p] occurs in [s]. *)
Fixpoint substring (p s : string) : bool :=
  String.prefix p s ||
  match s with
  | EmptyString => false
  | String _ s' => substring p s'
  end.

(** [needle in hay] with a string needle: substring of a string, member
    of a list, key of a dict; any other right operand is not iterable. *)
Definition contains (needle : string) (hay : value) : res bool :=
  match hay with
  | VStr s => Ok (substring needle s)
  | VList l => Ok (existsb (eqb (VStr needle)) l)
  | VDict d => Ok (bool_decide (is_Some (d !! needle)))
  | _ => Raise TypeError
  end.

(** [s.rsplit(sep, 1)] for a one-character separator: cut at the last
    occurrence, or the whole string in a one-element list. *)
Fixpoint rcut (sep : ascii) (s : string) : option (string * string) :=
  match s with
  | EmptyString => None
  | String a s' =>
      match rcut sep s' with
      | Some (pre, suf) => Some (String a pre, suf)
      | None => if Ascii.eqb a sep then Some (EmptyString, s') else None
      end
  end.

Definition rsplit1 (sep : ascii) (s : string) : list string :=
  match rcut sep s with
  | Some (pre, suf) => [pre; suf]
  | None => [s]
  end.

(** The code points of a string, read off its bytes.  A byte that begins
    no well-formed sequence belongs to no Python string; it stands for
    itself beyond the code space. *)
Definition is_cont (a : ascii) : bool :=
  let b := N_of_ascii a in ((128 <=? b) && (b <=? 191))%N.

Definition cont (a : ascii) : N := (N_of_ascii a - 128)%N.

Definition stray (a : ascii) : N := (0x110000 + N_of_ascii a)%N.

Fixpoint code_points (s : string) : list N :=
  match s with
  | EmptyString => []
  | String a s1 =>
      let b := N_of_ascii a in
      if (b <? 128)%N then b :: code_points s1
      else
        match s1 with
        | String a2 s2 =>
            if is_cont a2 then
              if ((194 <=? b) && (b <=? 223))%N then
                ((b - 192) * 64 + cont a2)%N :: code_points s2
              else
                match s2 with
                | String a3 s3 =>
                    if is_cont a3 then
                      let c3 :=
                        ((b - 224) * 4096 + cont a2 * 64 + cont a3)%N in
                      if ((224 <=? b) && (b <=? 239) && (2048 <=? c3))%N then
                        c3 :: code_points s3
                      else
                        match s3 with
                        | String a4 s4 =>
                            let c4 :=
                              ((b - 240) * 262144 + cont a2 * 4096
                               + cont a3 * 64 + cont a4)%N in
                            if (is_cont a4 && (240 <=? b) && (b <=? 244)
                                && (65536 <=? c4) && (c4 <=? 1114111))%N
                            then c4 :: code_points s4
                            else stray a :: code_points s1
                        | EmptyString => stray a :: code_points s1
                        end
                    else stray a :: code_points s1
                | EmptyString => stray a :: code_points s1
                end
            else stray a :: code_points s1
        | EmptyString => [stray a]
        end
  end.

(** What UTF-8 refuses to encode: a string that holds a surrogate, whose
    bytes are [ED], one of [A0] to [BF], and a third. *)
Fixpoint has_surrogate (s : string) : bool :=
  match s with
  | EmptyString => false
  | String a s' =>
      ((N_of_ascii a =? 0xED)%N &&
       match s' with
       | String b _ => ((0xA0 <=? N_of_ascii b) && (N_of_ascii b <=? 0xBF))%N
       | EmptyString => false
       end)
      || has_surrogate s'
  end.

Definition encodable (s : string) : bool := negb (has_surrogate s).

(** Beyond ASCII: the white space of [Py_UNICODE_ISSPACE], and the decimal
    digits of [Py_UNICODE_TODECIMAL], every run of ten given by its zero
    (the Unicode Character Database of Unicode 15, which CPython 3.12 and
    3.13 carry). *)
Definition unicode_space (c : N) : bool :=
  ((c =? 0x85) || (c =? 0xA0) || (c =? 0x1680)
   || ((0x2000 <=? c) && (c <=? 0x200A))
   || (c =? 0x2028) || (c =? 0x2029) || (c =? 0x202F) || (c =? 0x205F)
   || (c =? 0x3000))%N.

Definition DECIMAL_ZEROS : list N :=
  [ 0x0030; 0x0660; 0x06F0; 0x07C0; 0x0966; 0x09E6; 0x0A66; 0x0AE6; 0x0B66;
    0x0BE6; 0x0C66; 0x0CE6; 0x0D66; 0x0DE6; 0x0E50; 0x0ED0; 0x0F20; 0x1040;
    0x1090; 0x17E0; 0x1810; 0x1946; 0x19D0; 0x1A80; 0x1A90; 0x1B50; 0x1BB0;
    0x1C40; 0x1C50; 0xA620; 0xA8D0; 0xA900; 0xA9D0; 0xA9F0; 0xAA50; 0xABF0;
    0xFF10; 0x104A0; 0x10D30; 0x11066; 0x110F0; 0x11136; 0x111D0; 0x112F0;
    0x11450; 0x114D0; 0x11650; 0x116C0; 0x11730; 0x118E0; 0x11950; 0x11C50;
    0x11D50; 0x11DA0; 0x11F50; 0x16A60; 0x16AC0; 0x16B50; 0x1D7CE; 0x1D7D8;
    0x1D7E2; 0x1D7EC; 0x1D7F6; 0x1E140; 0x1E2F0; 0x1E4F0; 0x1E950;
    0x1FBF0 ]%N.

Definition unicode_decimal (c : N) : option N :=
  (λ zero, c - zero)%N <$>
    find (λ zero, (zero <=? c) && (c <? zero + 10))%N DECIMAL_ZEROS.

(** What [int] parses in place of a string that is not ASCII
    ([_PyUnicode_TransformDecimalAndSpaceToASCII]): white space becomes a
    blank, a decimal digit its ASCII digit, and the first character that is
    neither ends the text with a question mark. *)
Fixpoint to_ascii (cps : list N) : string :=
  match cps with
  | [] => EmptyString
  | c :: cps' =>
      if (c <? 127)%N then String (ascii_of_N c) (to_ascii cps')
      else if unicode_space c then String " " (to_ascii cps')
      else
        match unicode_decimal c with
        | Some d => String (ascii_of_N (48 + d)) (to_ascii cps')
        | None => "?"
        end
  end.

Definition ascii_form (s : string) : string :=
  let cps := code_points s in
  if forallb (λ c, c <? 128)%N cps then s else to_ascii cps.

(** [int(s)] for a string, base ten ([PyLong_FromString] on the ASCII
    form): surrounding whitespace, one optional sign, digits with single
    underscores between them, and no more digits than
    [sys.get_int_max_str_digits()] allows, 4300 unless the interpreter is
    told otherwise. *)
Definition is_space (a : ascii) : bool :=
  let n := nat_of_ascii a in
  ((9 <=? n)%nat && (n <=? 13)%nat) || (n =? 32)%nat.

Definition digit (a : ascii) : option Z :=
  let n := Z.of_nat (nat_of_ascii a) in
  if (48 <=? n) && (n <=? 57) then Some (n - 48) else None.

Fixpoint lstrip (s : string) : string :=
  match s with
  | String a s' => if is_space a then lstrip s' else s
  | EmptyString => EmptyString
  end.

Definition strip (s : string) : string :=
  String.rev (lstrip (String.rev (lstrip s))).

Fixpoint digits (acc : Z) (after_digit : bool) (s : string) : option Z :=
  match s with
  | EmptyString => if after_digit then Some acc else None
  | String a s' =>
      match digit a with
      | Some d => digits (10 * acc + d) true s'
      | None =>
          if Ascii.eqb a "_" && after_digit then digits acc false s'
          else None
      end
  end.

Definition parse (t : string) : option Z :=
  match t with
  | String "+" t' => digits 0 false t'
  | String "-" t' => Z.opp <$> digits 0 false t'
  | _ => digits 0 false t
  end.

Definition MAX_STR_DIGITS : N := 4300.

Fixpoint count_digits (s : string) : N :=
  match s with
  | EmptyString => 0
  | String a s' =>
      ((if digit a is Some _ then 1 else 0) + count_digits s')%N
  end.

Definition int_of_str (s : string) : res Z :=
  let t := strip (ascii_form s) in
  match parse t with
  | Some n =>
      if (MAX_STR_DIGITS <? count_digits t)%N then Raise ValueError else Ok n
  | None => Raise ValueError
  end.

(** [int(f)] for a float: truncation towards zero. *)
Definition int_of_float (f : spec_float) : res Z :=
  match f with
  | S754_zero _ => Ok 0
  | S754_infinity _ => Raise OverflowError
  | S754_nan => Raise ValueError
  | S754_finite s m e =>
      let q := Z.shiftl (Z.pos m) e in
      Ok (if s then - q else q)
  end.

(** [int(x)] *)
Definition int (v : value) : res Z :=
  match v with
  | VBool b => Ok (Z.b2z b)
  | VInt n => Ok n
  | VFloat f => int_of_float f
  | VStr s => int_of_str s
  | VNone | VList _ | VDict _ => Raise TypeError
  end.

(** The decimal text of an integer. *)
Definition decimal (n : Z) : string := NilZero.string_of_int (Z.to_int n).

(** [str(n)] for an integer, and [int.__repr__]: the decimal text, refused
    when it takes more digits than the same limit allows. *)
Definition str (n : Z) : res string :=
  if (MAX_STR_DIGITS <? N.of_nat (String.length (decimal (Z.abs n))))%N
  then Raise ValueError
  else Ok (decimal n).

End Py.

(** ** The Collector: [fetch_all_cards] *)

Definition API_BASE : string := "https://optcgapi.com/api".

Definition SET_IDS : list string :=
  [ "OP-01"; "OP-02"; "OP-03"; "OP-04"; "OP-05"; "OP-06"; "OP-07"; "OP-08";
    "OP-09"; "OP-10"; "OP-11"; "OP-12"; "OP-13"; "OP-14";
    "EB-01"; "EB-02";
    "PRB-01" ]%string.

Definition ST_IDS : list string :=
  [ "ST-01"; "ST-02"; "ST-03"; "ST-04"; "ST-05"; "ST-06"; "ST-07"; "ST-08";
    "ST-09"; "ST-10"; "ST-11"; "ST-12"; "ST-13"; "ST-14"; "ST-15"; "ST-16";
    "ST-17"; "ST-18"; "ST-19"; "ST-20"; "ST-21" ]%string.

(** What one [requests.get] can come to: an exception at the transport
    layer, or a reply with a status code whose body parses as JSON
    ([Some]) or does not ([None]). *)
Inductive response :=
| Failed
| Replied (status_code : Z) (json : option value).

(** The remote service: the reply to the [n]-th request of the run, for
    the URL requested. *)
Definition network := nat → string → response.

(** [fetch_json]: a list body of a 200 reply, and [[]] for anything else. *)
Definition fetch_json (resp : response) : list value :=
  match resp with
  | Replied 200 (Some (VList data)) => data
  | _ => []
  end.

(** [fetch_json(url)] as the [n]-th request; the next one is [S n]. *)
Definition fetch (net : network) (url : string) (n : nat) : list value * nat :=
  (fetch_json (net n url), S n).

(** The locals of [fetch_all_cards] that [add_cards] closes over. *)
Record collector := Collector {
  all_raw : list raw;
  seen : list value;
}.

Definition collector_init : collector := {| all_raw := []; seen := [] |}.

(** [card.get("card_set_id", "")] *)
Definition card_id (card : raw) : value := Py.get card "card_set_id" (VStr "").

(** [img_id = card.get("card_image_id") or ""; "_p" in img_id] *)
Definition is_variant (card : raw) : res bool :=
  Py.contains "_p" (Py.or (Py.get_none card "card_image_id") (VStr "")).

(** One turn of the loop of [add_cards]; [card.get] needs a dict. *)
Definition add_card (acc : collector * Z) (c : value) : res (collector * Z) :=
  let '(st, count) := acc in
  match c with
  | VDict card =>
      let cid := card_id card in
      skip <- is_variant card;;
      if skip then Ok (st, count)
      else if Py.truthy cid then
        known <- Py.set_mem cid (seen st);;
        if known then Ok (st, count)
        else Ok ({| all_raw := all_raw st ++ [card];
                    seen := seen st ++ [cid] |}, count + 1)
      else Ok (st, count)
  | _ => Raise AttributeError
  end.

(** [add_cards(cards)]: the state after the loop and the count returned. *)
Definition add_cards (st : collector) (cards : list value) : res (collector * Z) :=
  for_each add_card (st, 0) cards.

(** The fallback loops: one request and one [add_cards] per identifier. *)
Definition fetch_each (net : network) (path : string) (ids : list string)
    (w : nat * collector) : res (nat * collector) :=
  for_each (λ w sid,
      let '(cards, n) := fetch net (API_BASE +:+ path +:+ sid +:+ "/") w.1 in
      r <- add_cards w.2 cards;;
      Ok (n, r.1)) w ids.

(** A bulk request, with its fallback when the bulk list is empty. *)
Definition fetch_group (net : network) (bulk_path path : string)
    (ids : list string) (w : nat * collector) : res (nat * collector) :=
  let '(bulk, n) := fetch net (API_BASE +:+ bulk_path) w.1 in
  if Py.truthy (VList bulk) then
    r <- add_cards w.2 bulk;;
    Ok (n, r.1)
  else fetch_each net path ids (n, w.2).

Definition fetch_all_cards (net : network) : res (list raw) :=
  let w := (0%nat, collector_init) in
  w <- fetch_group net "/allSetCards/" "/sets/" SET_IDS w;;
  w <- fetch_group net "/allSTCards/" "/decks/" ST_IDS w;;
  let '(promos, n) := fetch net (API_BASE +:+ "/sets/PRB-01/") w.1 in
  st <- (if Py.truthy (VList promos) then
           r <- add_cards w.2 promos;; Ok r.1
         else Ok w.2);;
  Ok (all_raw st).

(** The Collector on one stream of cards: [add_cards] from the initial
    state, and the list it has gathered. *)
Definition collect (cards : list value) : res (list raw) :=
  r <- add_cards collector_init cards;;
  Ok (all_raw r.1).

(** The combined fetch stream of a run: every list handed to [add_cards],
    in the order of the calls. *)
Fixpoint fetched_each (net : network) (path : string) (ids : list string)
    (n : nat) : list value :=
  match ids with
  | [] => []
  | sid :: ids' =>
      fetch_json (net n (API_BASE +:+ path +:+ sid +:+ "/"))
        ++ fetched_each net path ids' (S n)
  end.

Definition fetched_group (net : network) (bulk_path path : string)
    (ids : list string) (n : nat) : list value * nat :=
  let bulk := fetch_json (net n (API_BASE +:+ bulk_path)) in
  if Py.truthy (VList bulk) then (bulk, S n)
  else (fetched_each net path ids (S n), (S n + length ids)%nat).

Definition fetched (net : network) : list value :=
  let '(sets, n) := fetched_group net "/allSetCards/" "/sets/" SET_IDS 0 in
  let '(decks, n) := fetched_group net "/allSTCards/" "/decks/" ST_IDS n in
  sets ++ decks ++ fetch_json (net n (API_BASE +:+ "/sets/PRB-01/")).

(** ** The Transformer: [convert_to_tcg_arena] *)

(** The ["face"]["front"] sub-object of an output card. *)
Record front := Front {
  front_name : value;
  front_type : value;
  front_cost : Z;
  front_isHorizontal : bool;
  front_image : value;
}.

(** An output card, field for field ([type_] and [Set_] stand for the keys
    ["type"] and ["Set"]). *)
Record card := Card {
  id : value;
  name : value;
  type_ : value;
  face : front;
  Color : value;
  cost : Z;
  isHorizontal : bool;
  Cost : string;
  Power : string;
  Counter : string;
  Life : string;
  Attribute : value;
  Subtypes : value;
  Text : value;
  Rarity : value;
  Set_ : value;
}.

(** A dictionary the program fills: entries in insertion order; storing
    under a key already present replaces the value where it stands. *)
Fixpoint dict_set {V} (d : list (string * V)) (k : string) (v : V)
  : list (string * V) :=
  match d with
  | [] => [(k, v)]
  | (k', v') :: d' =>
      if String.eqb k' k then (k, v) :: d' else (k', v') :: dict_set d' k v
  end.

(** The numeric coercion that the source spells out once per field:
    [try: int(x) if x is not None else 0; except (ValueError, TypeError): 0].
    Any other exception of [int] escapes. *)
Definition coerce_int (x : value) : res Z :=
  match x with
  | VNone => Ok 0
  | _ =>
      match Py.int x with
      | Ok n => Ok n
      | Raise ValueError | Raise TypeError => Ok 0
      | Raise e => Raise e
      end
  end.

(** [try: str(int(x)) if x is not None else "0"; except ...: "0"] *)
Definition coerce_str (x : value) : res string :=
  match x with
  | VNone => Ok "0"%string
  | _ =>
      match (n <- Py.int x;; Py.str n) with
      | Ok s => Ok s
      | Raise ValueError | Raise TypeError => Ok "0"%string
      | Raise e => Raise e
      end
  end.

(** [card_set_id.rsplit("-", 1)[0] if "-" in card_set_id else card_set_id];
    a list or dict has no [rsplit]. *)
Definition set_code_of (card_set_id : value) : res value :=
  has_sep <- Py.contains "-" card_set_id;;
  if has_sep then
    match card_set_id with
    | VStr s => Ok (VStr (hd EmptyString (Py.rsplit1 "-" s)))
    | _ => Raise AttributeError
    end
  else Ok card_set_id.

(** The key under which [card_list[card_set_id] = ...] stores: a string.
    A list or dict is unhashable; no other value gets this far, since
    ["-" in card_set_id] has raised for it. *)
Definition dict_key (card_set_id : value) : res string :=
  match card_set_id with
  | VStr s => Ok s
  | _ => Raise TypeError
  end.

(** The body of the loop for one record: [None] for a record skipped by
    [continue], otherwise the key and the card stored under it. *)
Definition convert_record (raw : raw) : res (option (string * card)) :=
  let card_set_id := Py.get raw "card_set_id" (VStr "") in
  if negb (Py.truthy card_set_id) then Ok None
  else
    let card_name := Py.get raw "card_name" (VStr "Unknown") in
    let card_type := Py.get raw "card_type" (VStr "Character") in
    let card_cost := Py.get_none raw "card_cost" in
    let card_power := Py.get_none raw "card_power" in
    let card_color := Py.get raw "card_color" (VStr "") in
    let card_text := Py.get raw "card_text" (VStr "") in
    let life := Py.get_none raw "life" in
    let counter := Py.get_none raw "counter_amount" in
    let attribute := Py.get raw "attribute" (VStr "") in
    let sub_types := Py.get raw "sub_types" (VStr "") in
    let rarity := Py.get raw "rarity" (VStr "") in
    let set_name := Py.get raw "set_name" (VStr "") in
    let image_url := Py.get raw "card_image" (VStr "") in
    set_code <- set_code_of card_set_id;;
    cost_val <- coerce_str card_cost;;
    power_val <- coerce_str card_power;;
    counter_val <- coerce_str counter;;
    life_val <- coerce_str life;;
    let is_horizontal := Py.eqb card_type (VStr "Stage") in
    cost_int <- coerce_int card_cost;;
    key <- dict_key card_set_id;;
    Ok (Some (key,
      {| id := card_set_id;
         name := card_name;
         type_ := card_type;
         face := {| front_name := card_name;
                    front_type := card_type;
                    front_cost := cost_int;
                    front_isHorizontal := is_horizontal;
                    front_image := image_url |};
         Color := card_color;
         cost := cost_int;
         isHorizontal := is_horizontal;
         Cost := cost_val;
         Power := power_val;
         Counter := counter_val;
         Life := life_val;
         Attribute := attribute;
         Subtypes := sub_types;
         Text := card_text;
         Rarity := rarity;
         Set_ := set_code |})).

Definition convert_step (card_list : list (string * card)) (raw : raw)
  : res (list (string * card)) :=
  entry <- convert_record raw;;
  match entry with
  | None => Ok card_list
  | Some (key, c) => Ok (dict_set card_list key c)
  end.

Definition convert_to_tcg_arena (raw_cards : list raw) : res (list (string * card)) :=
  for_each convert_step [] raw_cards.

(** ** Writing the file: [json.dump]

    [json.dump(card_list, f, indent=2, ensure_ascii=False)] into a file
    opened with [encoding="utf-8"] has two ways to fail on the data.  A
    string with a lone surrogate is handed to the file unescaped and the
    write raises [UnicodeEncodeError], which is a [ValueError]; an integer
    is printed by [int.__repr__], which raises [ValueError] beyond the
    digit limit.  Floats, NaN and the infinities included, are printed.
    (Two failures are left to the environment: a file system that refuses
    the file, and a value nested deeper than the interpreter's recursion
    limit lets the encoder descend.) *)
Module Json.

Fixpoint writable (v : value) : bool :=
  match v with
  | VNone | VBool _ | VFloat _ => true
  | VInt n => if Py.str n is Ok _ then true else false
  | VStr s => Py.encodable s
  | VList l => forallb writable l
  | VDict d => map_fold (λ k v b, Py.encodable k && writable v && b) true d
  end.

Definition writable_card (c : card) : bool :=
  writable (id c) && writable (name c) && writable (type_ c)
  && writable (front_name (face c)) && writable (front_type (face c))
  && writable (VInt (front_cost (face c)))
  && writable (front_image (face c))
  && writable (Color c) && writable (VInt (cost c))
  && Py.encodable (Cost c) && Py.encodable (Power c)
  && Py.encodable (Counter c) && Py.encodable (Life c)
  && writable (Attribute c) && writable (Subtypes c) && writable (Text c)
  && writable (Rarity c) && writable (Set_ c).

Definition dump (card_list : list (string * card)) : res unit :=
  if forallb (λ entry, Py.encodable entry.1 && writable_card entry.2) card_list
  then Ok ()
  else Raise ValueError.

End Json.

(** ** [main]: sorting, writing, summary and the exit status *)

(** A stable sort by key, as [list.sort(key=...)] and [sorted] are.  A key
    is a tuple, given as the list of its components.  The sort is CPython's,
    not this program's, so it is a parameter; what the program relies on is
    stated as [sorter_spec] below. *)
Definition sorter := ∀ A : Type, (A → list value) → list A → res (list A).

Section Main.
Variable py_sorted : sorter.

(** [key=lambda c: (c.get("set_id", ""), c.get("card_set_id", ""))] *)
Definition sort_key (c : raw) : list value :=
  [Py.get c "set_id" (VStr ""); Py.get c "card_set_id" (VStr "")].

(** [counts[k] = counts.get(k, 0) + 1]; the key must be hashable. *)
Fixpoint incr (counts : list (value * Z)) (k : value) : list (value * Z) :=
  match counts with
  | [] => [(k, 1)]
  | (k', n) :: counts' =>
      if Py.eqb k' k then (k', n + 1) :: counts'
      else (k', n) :: incr counts' k
  end.

Definition count (counts : list (value * Z)) (k : value)
  : res (list (value * Z)) :=
  if Py.hashable k then Ok (incr counts k) else Raise TypeError.

(** [if c: for color in c.split("/")]: only a string has [split]. *)
Definition check_colors (c : value) : res unit :=
  if Py.truthy c then
    match c with
    | VStr _ => Ok ()
    | _ => Raise AttributeError
    end
  else Ok ().

(** The summary printed at the end, as far as it can fail: the card types
    are counted in a dict and listed in sorted order, and the colours of
    every card are split.  (The colour and set tables have string keys;
    filling and sorting them cannot raise, and they are only printed.  The
    strings printed have been written to the file before, so the standard
    output, when it is UTF-8 as the file is, takes them too.) *)
Definition summary (card_list : list (string * card))
  : res (list (value * Z)) :=
  type_counts <- for_each (λ type_counts c,
      type_counts <- count type_counts (type_ c);;
      _ <- check_colors (Color c);;
      Ok type_counts) [] card_list.*2;;
  py_sorted _ (λ item, [item.1; VInt item.2]) type_counts.

(** What a run leaves behind: the exit status of the process and the
    card list that [CardList.json] holds in full, if the run got that far.
    An exception nobody catches ends the interpreter with status 1; when
    it comes from [json.dump], the file is left with a fragment and counts
    as not written. *)
Record outcome := Outcome {
  exit_status : Z;
  written : option (list (string * card));
}.

Definition main (net : network) : outcome :=
  match fetch_all_cards net with
  | Raise _ => {| exit_status := 1; written := None |}
  | Ok [] => {| exit_status := 1; written := None |}
  | Ok raw_cards =>
      match py_sorted _ sort_key raw_cards with
      | Raise _ => {| exit_status := 1; written := None |}
      | Ok raw_cards =>
          match convert_to_tcg_arena raw_cards with
          | Raise _ => {| exit_status := 1; written := None |}
          | Ok card_list =>
              match Json.dump card_list with
              | Raise _ => {| exit_status := 1; written := None |}
              | Ok _ =>
                  match summary card_list with
                  | Raise _ =>
                      {| exit_status := 1; written := Some card_list |}
                  | Ok _ => {| exit_status := 0; written := Some card_list |}
                  end
              end
          end
      end
  end.
End Main.

(** What the program needs from the sort: the result, if any, is a
    rearrangement of the input, and no comparison fails when all keys have
    strings and integers at the same positions. *)
Inductive kind := KStr | KInt.

Definition has_kind (k : kind) (v : value) : Prop :=
  match k, v with
  | KStr, VStr _ | KInt, VInt _ => True
  | _, _ => False
  end.

Record sorter_spec (py_sorted : sorter) : Prop := {
  sorted_perm : ∀ A (key : A → list value) l l',
      py_sorted A key l = Ok l' → l' ≡ₚ l;
  sorted_ok : ∀ A (key : A → list value) l kinds,
      Forall (λ x, Forall2 has_kind kinds (key x)) l →
      ∃ l', py_sorted A key l = Ok l';
}.

(** A sort meeting [sorter_spec], to run [main] on concrete input: stable
    insertion with Python's order on strings and on numbers, and Python's
    lexicographic order on tuples.  (Components that are lists, which Python
    orders too, are refused here like every other pair of operands.) *)
Module Insertion.

(** A number on the extended line; NaN is on it nowhere. *)
Inductive real := NaN | NegInf | Finite (x : Z * Z) | PosInf.

Definition real_of (v : value) : option real :=
  match v with
  | VFloat S754_nan => Some NaN
  | VFloat (S754_infinity s) => Some (if s then NegInf else PosInf)
  | _ => Finite <$> Py.number v
  end.

Definition number_ltb (x y : Z * Z) : bool :=
  let k := Z.min x.2 y.2 in
  (x.1 * 2 ^ (x.2 - k) <? y.1 * 2 ^ (y.2 - k)).

Definition real_ltb (x y : real) : bool :=
  match x, y with
  | NaN, _ | _, NaN => false
  | _, NegInf | PosInf, _ => false
  | NegInf, _ | _, PosInf => true
  | Finite x, Finite y => number_ltb x y
  end.

(** [a < b] on two components; unordered types raise. *)
Definition lt (a b : value) : res bool :=
  match a, b with
  | VStr s, VStr t => Ok (String.ltb s t)
  | _, _ =>
      match real_of a, real_of b with
      | Some x, Some y => Ok (real_ltb x y)
      | _, _ => Raise TypeError
      end
  end.

(** [a < b] on tuples: the first components that differ decide. *)
Fixpoint tuple_lt (a b : list value) : res bool :=
  match a, b with
  | x :: a', y :: b' => if Py.eqb x y then tuple_lt a' b' else lt x y
  | [], _ :: _ => Ok true
  | _, [] => Ok false
  end.

Fixpoint insert {A} (key : A → list value) (x : A) (l : list A)
  : res (list A) :=
  match l with
  | [] => Ok [x]
  | y :: l' =>
      before <- tuple_lt (key x) (key y);;
      if before then Ok (x :: y :: l')
      else (l'' <- insert key x l';; Ok (y :: l''))
  end.

Definition sorted : sorter := λ A key l,
  for_each (λ acc x, insert key x acc) [] l.

End Insertion.

(** ** Vocabulary of the statements *)

(** [p] occurs in [s] as a substring. *)
Definition occurs (p s : string) : Prop := ∃ a b, s = a +:+ p +:+ b.

(** The raw keys of the four numeric fields: cost, power, counter, life. *)
Definition numeric_keys : list string :=
  ["card_cost"; "card_power"; "counter_amount"; "life"]%string.

Definition is_infinite (v : value) : bool :=
  match v with
  | VFloat (S754_infinity _) => true
  | _ => false
  end.

(** The text field of a number: its decimal text, or ["0"] where [str]
    refuses it. *)
Definition text_of (n : Z) : string :=
  match Py.str n with
  | Ok s => s
  | Raise _ => "0"
  end.

(** Well-typed records: the identifier, the set identifier, the category
    and the colour are strings when present, the image reference is a
    string or null, no numeric field is an infinity, and what goes into
    the file can be written: every field copied to the output is a scalar
    without a lone surrogate or an integer beyond the digit limit, and the
    cost is an integer within that limit. *)
Definition str_or_absent (o : option value) : bool :=
  match o with
  | None | Some (VStr _) => true
  | _ => false
  end.

Definition str_or_null (o : option value) : bool :=
  match o with
  | None | Some VNone | Some (VStr _) => true
  | _ => false
  end.

(** The raw fields that are copied to the output as they are. *)
Definition copied_keys : list string :=
  ["card_set_id"; "card_name"; "card_type"; "card_color"; "card_text";
   "attribute"; "sub_types"; "rarity"; "card_image"]%string.

(** A scalar that the file can hold. *)
Definition plain (v : value) : bool :=
  match v with
  | VList _ | VDict _ => false
  | _ => Json.writable v
  end.

(** A value whose integer, if the coercion gives one, [int.__repr__]
    prints. *)
Definition printable (x : value) : bool :=
  match coerce_int x with
  | Ok n => Json.writable (VInt n)
  | Raise _ => true
  end.

Definition tidy (r : raw) : bool :=
  str_or_absent (r !! "card_set_id") && str_or_absent (r !! "set_id")
  && str_or_absent (r !! "card_type") && str_or_absent (r !! "card_color")
  && str_or_null (r !! "card_image_id")
  && forallb (λ k, negb (is_infinite (Py.get_none r k))) numeric_keys
  && forallb (λ k, plain (Py.get_none r k)) copied_keys
  && printable (Py.get_none r "card_cost").

Definition is_str (v : value) : Prop := ∃ s, v = VStr s.

(** An entry that the file can hold and the summary can count. *)
Definition sound_entry (entry : string * card) : Prop :=
  is_str (type_ entry.2) ∧ is_str (Color entry.2) ∧
  Py.encodable entry.1 = true ∧ Json.writable_card entry.2 = true.

Definition tidy_card (c : value) : Prop :=
  match c with
  | VDict r => tidy r = true
  | _ => False
  end.

Definition tidy_network (net : network) : Prop :=
  ∀ n url, Forall tidy_card (fetch_json (net n url)).

(** Concrete records and services for the closed statements. *)
Module Sample.

Definition luffy : raw :=
  {[ "card_set_id" := VStr "OP01-001"; "card_name" := VStr "Luffy";
     "card_type" := VStr "Leader"; "card_cost" := VNone ]}.

Definition luffy_dup : raw :=
  {[ "card_set_id" := VStr "OP01-001"; "card_name" := VStr "Luffy-dup" ]}.

Definition luffy_parallel : raw :=
  {[ "card_set_id" := VStr "OP01-001"; "card_name" := VStr "Luffy (parallel)";
     "card_image_id" := VStr "OP01-001_p1" ]}.

Definition stage : raw :=
  {[ "card_set_id" := VStr "OP01-077"; "card_type" := VStr "Stage";
     "card_cost" := VStr "2" ]}.

Definition nameless : raw := {[ "card_set_id" := VStr "PROMO" ]}.

Definition anonymous : raw := {[ "card_name" := VStr "Nobody" ]}.

Definition debt : raw :=
  {[ "card_set_id" := VStr "OP01-002"; "card_cost" := VInt (-1) ]}.

Definition boundless : raw :=
  {[ "card_set_id" := VStr "OP01-003";
     "card_cost" := VFloat (S754_infinity false) ]}.

Definition untyped : raw :=
  {[ "card_set_id" := VStr "OP01-004"; "card_type" := VNone ]}.

(** Numbers in other scripts: a cost of five as the fullwidth digit
    U+FF15, a power of minus seven behind the no-break space U+00A0. *)
Definition wide_five : string := String "239" (String "188" (String "149" "")).

Definition padded_minus_seven : string := String "194" (String "160" "-7").

Definition wide : raw :=
  {[ "card_set_id" := VStr "OP01-005"; "card_cost" := VStr wide_five;
     "card_power" := VStr padded_minus_seven ]}.

(** A name that is the lone surrogate U+D800. *)
Definition lone_surrogate : string :=
  String "237" (String "160" (String "128" "")).

Definition unwritable : raw :=
  {[ "card_set_id" := VStr "OP01-006"; "card_name" := VStr lone_surrogate ]}.

(** A service whose bulk set endpoint answers with [cards] and whose
    every other request fails. *)
Definition bulk_only (cards : list value) : network := λ n url,
  match n with
  | O => Replied 200 (Some (VList cards))
  | _ => Failed
  end.

End Sample.

(** The state of the Collector after the records [rs], in stream order,
    have gone through [add_cards]. *)
Record collector_inv (rs : list raw) (st : collector) : Prop := {
  inv_seen : seen st = card_id <$> all_raw st;
  inv_sublist : all_raw st `sublist_of` rs;
  inv_kept : ∀ r, r ∈ all_raw st →
      is_variant r = Ok false ∧ Py.truthy (card_id r) = true;
  inv_nodup : NoDup (card_id <$> all_raw st);
  inv_first : ∀ r, r ∈ all_raw st → ∃ l1 l2,
      rs = l1 ++ r :: l2 ∧
      ∀ r', r' ∈ l1 → is_variant r' = Ok false → card_id r' ≠ card_id r;
  inv_known : ∀ r, r ∈ rs →
      is_variant r = Ok false → Py.truthy (card_id r) = true →
      existsb (Py.eqb (card_id r)) (seen st) = true;
  inv_complete : ∀ l1 r l2 s, rs = l1 ++ r :: l2 →
      is_variant r = Ok false → card_id r = VStr s → s ≠ EmptyString →
      (∀ r', r' ∈ l1 → is_variant r' = Ok false → card_id r' ≠ card_id r) →
      r ∈ all_raw st;
}.

(** The state that [add_cards] leaves; the count it returns is only
    printed. *)
Definition run (st : collector) (cards : list value) : res collector :=
  r <- add_cards st cards;;
  Ok r.1.

(** A value that denotes something below zero: a negative integer or
    float, or a string whose number carries a minus sign. *)
Definition negative (v : value) : bool :=
  match v with
  | VInt n => n <? 0
  | VFloat (S754_finite true _ _) => true
  | VStr s =>
      match Py.strip (Py.ascii_form s) with
      | String "-" _ => true
      | _ => false
      end
  | _ => false
  end.

(** The numeric fields of a record hold no infinity. *)
Definition finite_numbers (raw : raw) : Prop :=
  ∀ k, k ∈ numeric_keys → is_infinite (Py.get_none raw k) = false.

(** The sum of a column of counts. *)
Definition total (l : list Z) : Z := foldr Z.add 0 l.

(** The loop of the summary with its type table and its set table: per
    card the type is counted, the colours are split, and the group code is
    counted when it is not empty.  (The colour table is left out: its keys
    are stripped strings, filling it cannot raise, and it is only
    printed.) *)
Definition tally (card_list : list (string * card))
  : res (list (value * Z) * list (value * Z)) :=
  for_each (λ tables c,
      type_counts <- count tables.1 (type_ c);;
      _ <- check_colors (Color c);;
      set_counts <- (if Py.truthy (Set_ c) then count tables.2 (Set_ c)
                     else Ok tables.2);;
      Ok (type_counts, set_counts)) ([], []) card_list.*2.

(** More services, for the closed statements on whole runs. *)
Module Scenario.

(** Every request goes wrong in its own way: no connection, a server
    error, a body that is no JSON, a body that is no list, an empty list. *)
Definition outage : network := λ n url,
  match n with
  | 0%nat => Failed
  | 1%nat => Replied 500 (Some (VList [VDict Sample.luffy]))
  | 2%nat => Replied 200 None
  | 3%nat => Replied 200 (Some (VDict Sample.luffy))
  | _ => Replied 200 (Some (VList []))
  end.

(** Both bulk endpoints answer; the promo request answers too. *)
Definition bulk_both : network := λ n url,
  match n with
  | 0%nat => Replied 200 (Some (VList [VDict Sample.luffy; VDict Sample.luffy_dup]))
  | 1%nat => Replied 200 (Some (VList [VDict Sample.stage]))
  | 2%nat => Replied 200 (Some (VList [VDict Sample.nameless; VDict Sample.luffy]))
  | _ => Failed
  end.

(** No bulk endpoint answers; the per-set and per-deck endpoints serve a
    card each where their URL is the one of the set [OP-01], of the deck
    [ST-01] or of the promo set. *)
Definition per_set : network := λ n url,
  if String.eqb url "https://optcgapi.com/api/sets/OP-01/" then
    Replied 200 (Some (VList [VDict Sample.luffy]))
  else if String.eqb url "https://optcgapi.com/api/decks/ST-01/" then
    Replied 200 (Some (VList [VDict Sample.stage]))
  else if String.eqb url "https://optcgapi.com/api/sets/PRB-01/" then
    Replied 200 (Some (VList [VDict Sample.nameless]))
  else Replied 404 None.

(** The mapping of four sample records: two leaders, a stage, a character. *)
Definition cards : list (string * card) :=
  match convert_to_tcg_arena
          [Sample.luffy; Sample.stage; Sample.nameless;
           <["card_set_id" := VStr "OP01-009"]> Sample.luffy] with
  | Ok card_list => card_list
  | Raise _ => []
  end.

(** A record whose identifier begins with its only dash. *)
Definition dashed : raw := {[ "card_set_id" := VStr "-077" ]}.

End Scenario.

(** * Properties *)

(** ** Results and loops *)

Lemma bind_ok {A B} (m : res A) (k : A → res B) (b : B) :
  bind m k = Ok b ↔ ∃ a, m = Ok a ∧ k a = Ok b.
Proof.
  destruct m as [a|e]; simpl.
  - split; [eauto | intros (a' & [= <-] & H); exact H].
  - split; [discriminate | intros (a' & [=] & _)].
Qed.

Lemma for_each_app {S A} (body : S → A → res S) (s : S) (l1 l2 : list A) :
  for_each body s (l1 ++ l2) =
  (s' <- for_each body s l1;; for_each body s' l2).
Proof.
  revert s. induction l1 as [|x l1 IH]; intros s; simpl; [done|].
  destruct (body s x) as [s'|e]; simpl; [apply IH | done].
Qed.

(** ** Strings *)

Lemma prefix_occurs (p s : string) :
  String.prefix p s = true ↔ ∃ b, s = p +:+ b.
Proof.
  revert s. induction p as [|a p IH]; intros [|c s]; simpl.
  - split; [by exists EmptyString | done].
  - split; [by exists (String c s) | done].
  - split; [done | intros (b & [=])].
  - destruct (Ascii.ascii_dec a c) as [<-|Hne].
    + rewrite IH. split; intros (b & Hb); exists b; [by rewrite Hb | by injection Hb].
    + split; [done | intros (b & Hb); injection Hb as -> _; done].
Qed.

Lemma substring_cons (p : string) (c : ascii) (s : string) :
  Py.substring p (String c s) = String.prefix p (String c s) || Py.substring p s.
Proof. reflexivity. Qed.

Lemma substring_occurs (p s : string) :
  Py.substring p s = true ↔ occurs p s.
Proof.
  induction s as [|c s IH].
  - change (Py.substring p "") with (String.prefix p "" || false).
    rewrite orb_false_r, prefix_occurs. split.
    + intros (b & ->). by exists EmptyString, b.
    + intros ([|? ?] & b & H); [by exists b | done].
  - rewrite substring_cons, orb_true_iff, prefix_occurs, IH. split.
    + intros [(b & ->) | (a & b & ->)]; [by exists EmptyString, b|].
      by exists (String c a), b.
    + intros ([|c' a] & b & H); [left; by exists b|].
      injection H as -> ->. right. by exists a, b.
Qed.

Lemma not_occurs_cons (p : string) (c : ascii) (s : string) :
  ¬ occurs p (String c s) → ¬ occurs p s.
Proof. intros H (a & b & ->). apply H. by exists (String c a), b. Qed.

(** [rcut] cuts at the last separator. *)
Lemma rcut_None (sep : ascii) (s : string) :
  Py.rcut sep s = None ↔ ¬ occurs (String sep "") s.
Proof.
  induction s as [|c s IH]; simpl.
  - split; [intros _ ([|??] & b & H); discriminate | done].
  - destruct (Py.rcut sep s) as [[pre suf]|].
    + split; [done|]. intros H. apply not_occurs_cons in H.
      by apply IH in H.
    + destruct (Ascii.eqb_spec c sep) as [->|Hne].
      * split; [done|]. intros H. exfalso. apply H. by exists EmptyString, s.
      * split; [|done]. intros _ ([|c' a] & b & H).
        -- injection H as -> _. done.
        -- injection H as -> ->. apply (proj1 IH eq_refl). by exists a, b.
Qed.

Lemma rcut_Some (sep : ascii) (s pre suf : string) :
  Py.rcut sep s = Some (pre, suf) ↔
  s = pre +:+ String sep suf ∧ ¬ occurs (String sep "") suf.
Proof.
  revert pre. induction s as [|c s IH]; intros pre; simpl.
  - split; [done|]. intros [H _]. by destruct pre.
  - destruct (Py.rcut sep s) as [[pre' suf']|] eqn:E.
    + split.
      * intros [= <- <-]. destruct (proj1 (IH pre') eq_refl) as [-> Hs]. done.
      * intros [H Hs]. destruct pre as [|c' pre].
        -- injection H as -> ->. apply rcut_None in Hs. congruence.
        -- injection H as -> H. 
           assert (Some (pre', suf') = Some (pre, suf)) as [= -> ->]
             by (by apply IH). done.
    + apply rcut_None in E.
      destruct (Ascii.eqb_spec c sep) as [->|Hne].
      * split.
        -- intros [= <- <-]. done.
        -- intros [H Hs]. destruct pre as [|c' pre].
           ++ by injection H as ->.
           ++ injection H as -> H. exfalso. apply E. by exists pre, suf.
      * split; [done|]. intros [H Hs]. destruct pre as [|c' pre].
        -- by injection H as -> _.
        -- injection H as -> H. exfalso. apply E. by exists pre, suf.
Qed.

(** ** Equality of values *)

Lemma number_eqb_refl (x : Z * Z) : Py.number_eqb x x = true.
Proof. unfold Py.number_eqb. apply Z.eqb_refl. Qed.

Lemma eqb_refl (v : value) : Py.hashable v = true → Py.eqb v v = true.
Proof.
  destruct v as [|b|n|f|s|l|d]; intros Hh; try done; unfold Py.eqb; simpl;
    try done; try apply number_eqb_refl.
  - destruct f as [?|[]| |]; simpl; try done; apply number_eqb_refl.
  - apply String.eqb_refl.
Qed.

Lemma eqb_str_l (s : string) (v : value) :
  Py.eqb (VStr s) v = true ↔ v = VStr s.
Proof.
  unfold Py.eqb. simpl. destruct v as [|b|n|f|t|l|d]; simpl; try done.
  - destruct f; done.
  - rewrite String.eqb_eq. split; [by intros -> | by intros [= ->]].
Qed.

Lemma eqb_str_r (s : string) (v : value) :
  Py.eqb v (VStr s) = true ↔ v = VStr s.
Proof.
  unfold Py.eqb. destruct v as [|b|n|f|t|l|d]; simpl; try done.
  - destruct f; done.
  - rewrite String.eqb_eq. split; [by intros -> | by intros [= ->]].
Qed.

Lemma truthy_str (s : string) : Py.truthy (VStr s) = true ↔ s ≠ EmptyString.
Proof.
  simpl. rewrite negb_true_iff. destruct (String.eqb_spec s ""); split; done.
Qed.

(** ** The Collector *)

(** Membership in [l ++ [x]]: in [l], or [x] itself. *)
Ltac snoc_in H :=
  apply elem_of_app in H as [H|H];
  [|apply list_elem_of_singleton in H; subst].

Lemma collector_inv_init : collector_inv [] collector_init.
Proof.
  split; simpl.
  - done.
  - constructor.
  - intros r Hr. by apply elem_of_nil in Hr.
  - constructor.
  - intros r Hr. by apply elem_of_nil in Hr.
  - intros r Hr. by apply elem_of_nil in Hr.
  - intros l1 r l2 s H. by destruct l1.
Qed.

(** A record that leaves the state as it is: a variant, a record without
    identifier, or one whose identifier is known. *)
Lemma collector_inv_skip (rs : list raw) (st : collector) (r : raw) :
  collector_inv rs st →
  (is_variant r = Ok false → Py.truthy (card_id r) = true →
   existsb (Py.eqb (card_id r)) (seen st) = true) →
  collector_inv (rs ++ [r]) st.
Proof.
  intros [Hseen Hsub Hkept Hnodup Hfirst Hknown Hcompl] Hr.
  split; try done.
  - by apply sublist_inserts_r.
  - intros r0 H0. destruct (Hfirst r0 H0) as (l1 & l2 & -> & H).
    exists l1, (l2 ++ [r]). by rewrite <-app_assoc.
  - intros r' H'. snoc_in H'; auto.
  - intros l1 r0 l2 s Heq Hv Hid Hs Hl1.
    destruct l2 as [|y l2 _] using rev_ind.
    + apply app_inj_tail in Heq as [<- <-].
      assert (existsb (Py.eqb (card_id r)) (seen st) = true) as Hex.
      { apply Hr; [done|]. rewrite Hid. by apply truthy_str. }
      apply existsb_exists in Hex as (k & Hk & Heqb).
      rewrite Hid in Heqb. apply eqb_str_l in Heqb as ->.
      rewrite Hseen in Hk. apply list_elem_of_In, list_elem_of_fmap in Hk
        as (r1 & Hid1 & Hr1).
      destruct (Hkept r1 Hr1) as [Hv1 _].
      exfalso. apply (Hl1 r1); [|done|congruence].
      by eapply elem_of_sublist.
    + rewrite app_comm_cons, app_assoc in Heq.
      apply app_inj_tail in Heq as [-> _]. by eapply Hcompl.
Qed.

Lemma collector_inv_add (rs : list raw) (st : collector) (r : raw) :
  collector_inv rs st →
  is_variant r = Ok false → Py.truthy (card_id r) = true →
  Py.hashable (card_id r) = true →
  existsb (Py.eqb (card_id r)) (seen st) = false →
  collector_inv (rs ++ [r])
    {| all_raw := all_raw st ++ [r]; seen := seen st ++ [card_id r] |}.
Proof.
  intros [Hseen Hsub Hkept Hnodup Hfirst Hknown Hcompl] Hv Ht Hh Hnew.
  assert (∀ r', r' ∈ rs → is_variant r' = Ok false → card_id r' ≠ card_id r)
    as Hfresh.
  { intros r' H' Hv' Hid. rewrite <-Hid in Ht, Hnew.
    by rewrite (Hknown r' H' Hv' Ht) in Hnew. }
  split; simpl.
  - by rewrite fmap_app, Hseen.
  - by apply sublist_app.
  - intros r0 H0. snoc_in H0; auto.
  - rewrite fmap_app. apply NoDup_app. split; [done|]. split; [|apply NoDup_singleton].
    intros k Hk Hk'. apply list_elem_of_singleton in Hk' as ->.
    rewrite <-Hseen in Hk. apply not_true_iff_false in Hnew. apply Hnew.
    apply existsb_exists. exists (card_id r).
    split; [by apply list_elem_of_In | by apply eqb_refl].
  - intros r0 H0. snoc_in H0.
    + destruct (Hfirst r0 H0) as (l1 & l2 & -> & H).
      exists l1, (l2 ++ [r]). by rewrite <-app_assoc.
    + exists rs, []. done.
  - intros r' H' Hv' Ht'. rewrite existsb_app. apply orb_true_iff.
    snoc_in H'.
    + left. by apply Hknown.
    + right. simpl. by rewrite eqb_refl.
  - intros l1 r0 l2 s Heq Hv0 Hid Hs Hl1. apply elem_of_app.
    destruct l2 as [|y l2 _] using rev_ind.
    + apply app_inj_tail in Heq as [<- <-]. right. by apply list_elem_of_singleton.
    + rewrite app_comm_cons, app_assoc in Heq.
      apply app_inj_tail in Heq as [-> _]. left. by eapply Hcompl.
Qed.

(** One turn of the loop keeps the invariant. *)
Lemma add_card_inv (rs : list raw) (st st' : collector) (n n' : Z) (c : value) :
  collector_inv rs st →
  add_card (st, n) c = Ok (st', n') →
  ∃ r, c = VDict r ∧ collector_inv (rs ++ [r]) st'.
Proof.
  intros Hinv Hstep. destruct c as [| | | | | |r]; try done.
  exists r. split; [done|]. simpl in Hstep.
  destruct (is_variant r) as [[|]|e] eqn:Hv; simpl in Hstep; [| |done].
  { injection Hstep as <- <-. apply collector_inv_skip; [done|congruence]. }
  destruct (Py.truthy (card_id r)) eqn:Ht.
  2:{ injection Hstep as <- <-. apply collector_inv_skip; [done|congruence]. }
  unfold Py.set_mem in Hstep.
  destruct (Py.hashable (card_id r)) eqn:Hh; [|done]. simpl in Hstep.
  destruct (existsb (Py.eqb (card_id r)) (seen st)) eqn:Hex.
  - injection Hstep as <- <-. apply collector_inv_skip; [done|auto].
  - injection Hstep as <- <-. by apply collector_inv_add.
Qed.

Lemma add_cards_inv (cards : list value) (rs : list raw) (st st' : collector) (n n' : Z) :
  collector_inv rs st →
  for_each add_card (st, n) cards = Ok (st', n') →
  ∃ rs', cards = VDict <$> rs' ∧ collector_inv (rs ++ rs') st'.
Proof.
  revert rs st n. induction cards as [|c cards IH]; intros rs st n Hinv Hrun.
  - injection Hrun as <- <-. exists []. by rewrite app_nil_r.
  - simpl in Hrun. apply bind_ok in Hrun as ([st1 n1] & Hstep & Hrun).
    destruct (add_card_inv _ _ _ _ _ _ Hinv Hstep) as (r & -> & Hinv1).
    destruct (IH _ _ _ Hinv1 Hrun) as (rs' & -> & Hinv').
    exists (r :: rs'). split; [done|]. by rewrite <-app_assoc in Hinv'.
Qed.

(** The count does not steer the loop. *)
Lemma add_card_count (st : collector) (n : Z) (c : value) :
  add_card (st, n) c = (r <- add_card (st, 0) c;; Ok (r.1, n + r.2)).
Proof.
  destruct c as [| | | | | |r]; try done. simpl.
  destruct (is_variant r) as [[|]|e]; simpl; [by rewrite Z.add_0_r| |done].
  destruct (Py.truthy (card_id r)); simpl; [|by rewrite Z.add_0_r].
  destruct (Py.set_mem (card_id r) (seen st)) as [[|]|e]; simpl;
    [by rewrite Z.add_0_r|done|done].
Qed.

Lemma for_each_add_card_count (cards : list value) (st : collector) (n : Z) :
  for_each add_card (st, n) cards =
  (r <- for_each add_card (st, 0) cards;; Ok (r.1, n + r.2)).
Proof.
  revert st n. induction cards as [|c cards IH]; intros st n; cbn [for_each].
  - simpl. by rewrite Z.add_0_r.
  - rewrite (add_card_count st n).
    destruct (add_card (st, 0) c) as [[st1 n1]|e]; cbn [bind fst snd]; [|done].
    rewrite (IH st1 (n + n1)), (IH st1 n1).
    destruct (for_each add_card (st1, 0) cards) as [[st2 n2]|e]; simpl; [|done].
    by rewrite Z.add_assoc.
Qed.

Lemma run_app (st : collector) (l1 l2 : list value) :
  run st (l1 ++ l2) = (st' <- run st l1;; run st' l2).
Proof.
  unfold run, add_cards. rewrite for_each_app.
  destruct (for_each add_card (st, 0) l1) as [[st1 n1]|e]; simpl; [|done].
  rewrite for_each_add_card_count.
  by destruct (for_each add_card (st1, 0) l2) as [[st2 n2]|e].
Qed.

Lemma run_inv (cards : list value) (rs : list raw) (st st' : collector) :
  collector_inv rs st → run st cards = Ok st' →
  ∃ rs', cards = VDict <$> rs' ∧ collector_inv (rs ++ rs') st'.
Proof.
  unfold run, add_cards. intros Hinv ([st1 n1] & Hrun & [= <-])%bind_ok.
  by eapply add_cards_inv.
Qed.

Lemma collect_run (cards : list value) :
  collect cards = (st <- run collector_init cards;; Ok (all_raw st)).
Proof. unfold collect, run. by destruct (add_cards collector_init cards). Qed.

(** The requests of a run and the lists they hand to [add_cards]. *)
Lemma fetch_each_run (net : network) (path : string) (ids : list string)
    (n : nat) (st : collector) :
  fetch_each net path ids (n, st) =
  (st' <- run st (fetched_each net path ids n);; Ok ((n + length ids)%nat, st')).
Proof.
  revert n st. induction ids as [|sid ids IH]; intros n st.
  - simpl. by rewrite Nat.add_0_r.
  - cbn [fetched_each]. rewrite run_app. unfold fetch_each in *.
    cbn [for_each fetch fst snd]. unfold run at 1.
    destruct (add_cards st _) as [[st1 n1]|e]; simpl; [|done].
    rewrite IH. destruct (run st1 _) as [st2|e]; simpl; [|done].
    by rewrite Nat.add_succ_r.
Qed.

Lemma fetch_group_run (net : network) (bulk_path path : string)
    (ids : list string) (n : nat) (st : collector) :
  fetch_group net bulk_path path ids (n, st) =
  (st' <- run st (fetched_group net bulk_path path ids n).1;;
   Ok ((fetched_group net bulk_path path ids n).2, st')).
Proof.
  unfold fetch_group, fetched_group, fetch. cbn [fst snd].
  destruct (Py.truthy (VList _)); cbn [fst snd].
  - unfold run. by destruct (add_cards st _) as [[st1 n1]|e].
  - apply fetch_each_run.
Qed.

Lemma fetch_all_cards_collect (net : network) :
  fetch_all_cards net = collect (fetched net).
Proof.
  unfold fetch_all_cards, fetched. rewrite collect_run, fetch_group_run.
  destruct (fetched_group net "/allSetCards/" _ _ _) as [sets n1].
  cbn [fst snd].
  destruct (fetched_group net "/allSTCards/" _ _ n1) as [decks n2] eqn:E2.
  rewrite !run_app.
  destruct (run collector_init sets) as [st1|e]; cbn [bind]; [|done].
  rewrite fetch_group_run, E2, run_app. cbn [fst snd].
  destruct (run st1 decks) as [st2|e]; cbn [bind fst snd]; [|done].
  unfold fetch.
  destruct (fetch_json _) as [|c promos]; [done|].
  cbn [Py.truthy]. unfold run.
  by destruct (add_cards st2 _) as [[st3 n3]|e].
Qed.

Lemma collect_inv (cards : list value) (out : list raw) :
  collect cards = Ok out →
  ∃ rs st, cards = VDict <$> rs ∧ collector_inv rs st ∧ out = all_raw st.
Proof.
  rewrite collect_run. intros (st & Hrun & [= <-])%bind_ok.
  destruct (run_inv _ _ _ _ collector_inv_init Hrun) as (rs & -> & Hinv).
  by exists rs, st.
Qed.

Lemma is_variant_str (r : raw) (img : string) :
  r !! "card_image_id" = Some (VStr img) →
  is_variant r = Ok (Py.substring "_p" img).
Proof.
  intros H. unfold is_variant, Py.get_none, Py.get, Py.or. rewrite H.
  destruct img as [|c img]; done.
Qed.

Lemma is_variant_absent (r : raw) :
  r !! "card_image_id" = None ∨ r !! "card_image_id" = Some VNone →
  is_variant r = Ok false.
Proof.
  intros [H|H]; unfold is_variant, Py.get_none, Py.get, Py.or; by rewrite H.
Qed.

Lemma card_id_truthy (r : raw) :
  Py.truthy (card_id r) = true →
  r !! "card_set_id" ≠ None ∧ r !! "card_set_id" ≠ Some (VStr "").
Proof.
  unfold card_id, Py.get. destruct (r !! "card_set_id") as [v|]; [|done].
  intros Ht. split; [done|]. by intros [= ->].
Qed.

(** A variant changes nothing, whatever its identifier. *)
Lemma add_card_variant (st : collector) (n : Z) (r : raw) :
  is_variant r = Ok true → add_card (st, n) (VDict r) = Ok (st, n).
Proof. intros H. simpl. by rewrite H. Qed.

Lemma collect_variant (l1 l2 : list value) (r : raw) :
  is_variant r = Ok true →
  collect (l1 ++ VDict r :: l2) = collect (l1 ++ l2).
Proof.
  intros H. rewrite !collect_run, !run_app.
  destruct (run collector_init l1) as [st|e]; simpl; [|done].
  unfold run, add_cards. cbn [for_each]. by rewrite add_card_variant.
Qed.

(** On tidy records the Collector does not raise, and what it gathers is
    tidy. *)
Lemma tidy_spec (r : raw) :
  tidy r = true ↔
  str_or_absent (r !! "card_set_id") = true ∧
  str_or_absent (r !! "set_id") = true ∧
  str_or_absent (r !! "card_type") = true ∧
  str_or_absent (r !! "card_color") = true ∧
  str_or_null (r !! "card_image_id") = true ∧
  (∀ k, k ∈ numeric_keys → is_infinite (Py.get_none r k) = false) ∧
  (∀ k, k ∈ copied_keys → plain (Py.get_none r k) = true) ∧
  printable (Py.get_none r "card_cost") = true.
Proof.
  unfold tidy. rewrite !andb_true_iff, !forallb_forall.
  setoid_rewrite negb_true_iff. setoid_rewrite <-list_elem_of_In. tauto.
Qed.

Lemma add_card_tidy (st : collector) (n : Z) (c : value) :
  tidy_card c → ∃ st' n', add_card (st, n) c = Ok (st', n').
Proof.
  destruct c as [| | | | | |r]; try done. simpl.
  intros (Hid & _ & _ & _ & Himg & _)%tidy_spec.
  assert (∃ b, is_variant r = Ok b) as [b ->].
  { destruct (r !! "card_image_id") as [[]|] eqn:E; try done;
      eauto using is_variant_str, is_variant_absent. }
  simpl. destruct b; [eauto|].
  destruct (Py.truthy (card_id r)); [|eauto].
  unfold Py.set_mem.
  assert (Py.hashable (card_id r) = true) as ->.
  { unfold card_id, Py.get. by destruct (r !! "card_set_id") as [[]|]. }
  simpl. destruct (existsb _ _); eauto.
Qed.

Lemma run_tidy (cards : list value) (st : collector) :
  Forall tidy_card cards → ∃ st', run st cards = Ok st'.
Proof.
  unfold run, add_cards. generalize 0. revert st.
  induction cards as [|c cards IH]; intros st n Hall; [by eexists|].
  apply Forall_cons in Hall as [Hc Hall]. cbn [for_each].
  destruct (add_card_tidy st n c Hc) as (st1 & n1 & ->). simpl.
  apply IH, Hall.
Qed.

Lemma fetched_tidy (net : network) :
  tidy_network net → Forall tidy_card (fetched net).
Proof.
  intros Hnet.
  assert (∀ path ids n, Forall tidy_card (fetched_each net path ids n)) as Heach.
  { intros path ids. induction ids as [|sid ids IH]; intros n; simpl; [done|].
    apply Forall_app. split; [apply Hnet | apply IH]. }
  assert (∀ bulk path ids n,
    Forall tidy_card (fetched_group net bulk path ids n).1) as Hgroup.
  { intros bulk path ids n. unfold fetched_group.
    destruct (Py.truthy _); simpl; [apply Hnet | apply Heach]. }
  unfold fetched.
  pose proof (Hgroup "/allSetCards/" "/sets/" SET_IDS 0%nat) as H1.
  destruct (fetched_group net "/allSetCards/" _ _ _) as [sets n1].
  pose proof (Hgroup "/allSTCards/" "/decks/" ST_IDS n1) as H2.
  destruct (fetched_group net "/allSTCards/" _ _ _) as [decks n2].
  rewrite !Forall_app. auto.
Qed.

Lemma fetch_all_cards_tidy (net : network) :
  tidy_network net →
  ∃ out, fetch_all_cards net = Ok out ∧ Forall (λ r, tidy r = true) out.
Proof.
  intros Hnet%fetched_tidy. rewrite fetch_all_cards_collect.
  destruct (run_tidy _ collector_init Hnet) as [st Hrun].
  exists (all_raw st). split; [by rewrite collect_run, Hrun|].
  destruct (run_inv _ _ _ _ collector_inv_init Hrun) as (rs & Hrs & Hinv).
  rewrite Hrs in Hnet. apply Forall_forall. intros r Hr.
  rewrite Forall_forall in Hnet. apply (Hnet (VDict r)).
  apply list_elem_of_fmap_2. eapply elem_of_sublist; [done|apply Hinv].
Qed.

(** ** The Transformer *)

(** A string is converted or refused with [ValueError]. *)
Lemma int_of_str_cases (s : string) :
  (∃ n, Py.int_of_str s = Ok n) ∨ Py.int_of_str s = Raise ValueError.
Proof.
  unfold Py.int_of_str. destruct (Py.parse _) as [n|]; [|by right].
  destruct (_ <? _)%N; [by right | left; by eexists].
Qed.

Lemma str_cases (n : Z) :
  Py.str n = Ok (Py.decimal n) ∨ Py.str n = Raise ValueError.
Proof. unfold Py.str. destruct (_ <? _)%N; [by right | by left]. Qed.

(** Only an infinity escapes the [except] clause of the coercion. *)
Lemma int_overflow (x : value) :
  Py.int x = Raise OverflowError ↔ is_infinite x = true.
Proof.
  destruct x as [|b|n|f|s|l|d]; simpl; try done.
  - by destruct f.
  - split; [|done]. by destruct (int_of_str_cases s) as [[n ->]| ->].
Qed.

Lemma int_no_attribute_error (x : value) : Py.int x ≠ Raise AttributeError.
Proof.
  destruct x as [|b|n|f|s|l|d]; simpl; try done.
  - by destruct f.
  - by destruct (int_of_str_cases s) as [[n ->]| ->].
Qed.

(** The value the coercion settles on. *)
Lemma coerce_int_spec (x : value) :
  is_infinite x = false →
  coerce_int x = Ok (match Py.int x with Ok n => n | Raise _ => 0 end).
Proof.
  intros Hfin. unfold coerce_int.
  destruct (Py.int x) as [n|[]] eqn:E.
  - destruct x; try done.
  - by destruct x.
  - by destruct x.
  - apply int_overflow in E. congruence.
  - by apply int_no_attribute_error in E.
Qed.

(** The text field of a value: the decimal text of its integer, or
    ["0"] when [str] refuses the integer, which the [except] clause of the
    coercion catches. *)
Lemma text_of_zero : text_of 0 = "0"%string.
Proof. reflexivity. Qed.

Lemma coerce_str_int (x : value) (n : Z) :
  coerce_int x = Ok n → coerce_str x = Ok (text_of n).
Proof.
  assert (∀ r : res Z,
    match r with
    | Ok n => Ok n
    | Raise ValueError | Raise TypeError => Ok 0
    | Raise e => Raise e
    end = Ok n →
    match (n <- r;; Py.str n) with
    | Ok s => Ok s
    | Raise ValueError | Raise TypeError => Ok "0"%string
    | Raise e => Raise e
    end = Ok (text_of n)) as Hres.
  { intros [m|e]; cbn [bind].
    - intros [= ->]. unfold text_of. by destruct (str_cases n) as [-> | ->].
    - destruct e; try done; by intros [= <-]. }
  unfold coerce_int, coerce_str.
  destruct x; try (by intros [= <-]); apply Hres.
Qed.

Lemma digit_nonneg (a : ascii) (d : Z) : Py.digit a = Some d → 0 ≤ d.
Proof.
  unfold Py.digit. destruct (_ && _) eqn:E; [|done]. intros [= <-].
  apply andb_true_iff in E as [E _]. lia.
Qed.

Lemma digits_nonneg (s : string) (acc : Z) (b : bool) (n : Z) :
  0 ≤ acc → Py.digits acc b s = Some n → 0 ≤ n.
Proof.
  revert acc b. induction s as [|a s IH]; intros acc b Hacc; simpl.
  - destruct b; [by intros [= <-] | done].
  - destruct (Py.digit a) as [d|] eqn:Hd.
    + apply IH. apply digit_nonneg in Hd. lia.
    + destruct (_ && _); [by apply IH | done].
Qed.

Lemma int_nonneg (x : value) (n : Z) :
  negative x = false → Py.int x = Ok n → 0 ≤ n.
Proof.
  destruct x as [|b|m|f|s|l|d]; simpl; try done.
  - intros _ [= <-]. by destruct b.
  - intros H [= <-]. lia.
  - destruct f as [?|?| |sg m e]; simpl; try done.
    + intros _ [= <-]. done.
    + destruct sg; [done|]. intros _ [= <-]. by apply Z.shiftl_nonneg.
  - unfold Py.int_of_str. intros Hneg.
    destruct (Py.parse _) as [k|] eqn:Hparse; [|done].
    destruct (_ <? _)%N; [done|]. intros [= <-]. revert Hneg Hparse.
    destruct (Py.strip _) as [|a t]; [done|]. unfold Py.parse.
    destruct a as [[] [] [] [] [] [] [] []]; try done;
      intros _; by apply digits_nonneg.
Qed.

(** The conversion at work beyond ASCII: a fullwidth five, a minus seven
    behind a no-break space, an Arabic-Indic three, a control character
    that is white space to [str.isspace] but not to [int], and a lone
    surrogate. *)
Lemma int_of_text_examples :
  Py.int (VStr Sample.wide_five) = Ok 5 ∧
  Py.int (VStr Sample.padded_minus_seven) = Ok (-7) ∧
  Py.int (VStr (String "217" (String "163" ""))) = Ok 3 ∧
  Py.int (VStr (String "028" "5")) = Raise ValueError ∧
  Py.int (VStr Sample.lone_surrogate) = Raise ValueError.
Proof.
  do 4 (apply conj; [vm_compute; reflexivity|]). vm_compute. reflexivity.
Qed.

(** At the digit limit: a text of more digits than the limit is refused
    and coerced to zero; an integer of more digits than the limit is
    handed on by [int] and refused by [str], so that its text field is
    ["0"]. *)
Lemma int_of_str_limit (s : string) :
  (Py.MAX_STR_DIGITS < Py.count_digits (Py.strip (Py.ascii_form s)))%N →
  Py.int (VStr s) = Raise ValueError ∧ coerce_int (VStr s) = Ok 0 ∧
  coerce_str (VStr s) = Ok "0"%string.
Proof.
  intros H%N.ltb_lt.
  assert (Py.int (VStr s) = Raise ValueError) as Hint.
  { cbn [Py.int]. unfold Py.int_of_str. rewrite H. by destruct (Py.parse _). }
  unfold coerce_int, coerce_str. by rewrite Hint.
Qed.

Lemma str_limit (n : Z) :
  (Py.MAX_STR_DIGITS
   < N.of_nat (String.length (Py.decimal (Z.abs n))))%N →
  Py.str n = Raise ValueError ∧ coerce_int (VInt n) = Ok n ∧
  coerce_str (VInt n) = Ok "0"%string.
Proof.
  intros H%N.ltb_lt.
  assert (Py.str n = Raise ValueError) as Hstr.
  { unfold Py.str. by rewrite H. }
  unfold coerce_int, coerce_str. cbn [Py.int bind]. by rewrite Hstr.
Qed.

(** What a transformed record holds, read off the loop body. *)
Lemma convert_record_Some (raw : raw) (key : string) (c : card) :
  convert_record raw = Ok (Some (key, c)) →
  Py.truthy (card_id raw) = true ∧
  dict_key (card_id raw) = Ok key ∧
  set_code_of (card_id raw) = Ok (Set_ c) ∧
  coerce_int (Py.get_none raw "card_cost") = Ok (cost c) ∧
  coerce_str (Py.get_none raw "card_cost") = Ok (Cost c) ∧
  coerce_str (Py.get_none raw "card_power") = Ok (Power c) ∧
  coerce_str (Py.get_none raw "counter_amount") = Ok (Counter c) ∧
  coerce_str (Py.get_none raw "life") = Ok (Life c) ∧
  id c = card_id raw ∧
  name c = Py.get raw "card_name" (VStr "Unknown") ∧
  type_ c = Py.get raw "card_type" (VStr "Character") ∧
  Color c = Py.get raw "card_color" (VStr "") ∧
  isHorizontal c = Py.eqb (type_ c) (VStr "Stage") ∧
  face c = {| front_name := name c; front_type := type_ c;
              front_cost := cost c; front_isHorizontal := isHorizontal c;
              front_image := Py.get raw "card_image" (VStr "") |}.
Proof.
  unfold convert_record. fold (card_id raw).
  destruct (Py.truthy (card_id raw)); [|done]. cbn [negb].
  intros (set_code & Hset & H)%bind_ok.
  apply bind_ok in H as (cost_val & Hcost & H).
  apply bind_ok in H as (power_val & Hpower & H).
  apply bind_ok in H as (counter_val & Hcounter & H).
  apply bind_ok in H as (life_val & Hlife & H).
  apply bind_ok in H as (cost_int & Hint & H).
  apply bind_ok in H as (key' & Hkey & [= <- <-]).
  done.
Qed.

Lemma convert_record_None (raw : raw) :
  convert_record raw = Ok None ↔ Py.truthy (card_id raw) = false.
Proof.
  unfold convert_record. fold (card_id raw).
  destruct (Py.truthy (card_id raw)); cbn [negb]; [|done].
  split; [|done]. intros H. exfalso.
  repeat (apply bind_ok in H as (? & _ & H)). done.
Qed.

(** Only a string, a list or a dict gets past the separator test, so
    [dict_key] never meets another hashable value. *)
Lemma set_code_of_ok (v c : value) :
  set_code_of v = Ok c → is_str v ∨ Py.hashable v = false.
Proof.
  unfold set_code_of. destruct v; try done; intros _;
    [left; by eexists | by right | by right].
Qed.

Lemma set_code_of_str (s : string) :
  set_code_of (VStr s) = Ok (VStr (hd EmptyString (Py.rsplit1 "-" s))).
Proof.
  unfold set_code_of, Py.rsplit1. simpl.
  destruct (Py.substring "-" s) eqn:E; [done|].
  destruct (Py.rcut "-" s) as [[pre suf]|] eqn:R; [|done].
  apply rcut_Some in R as [-> _].
  apply not_true_iff_false in E. exfalso. apply E, substring_occurs.
  by exists pre, suf.
Qed.

(** A record with a string identifier and finite numbers is transformed. *)
Lemma convert_record_total (raw : raw) (s : string) :
  card_id raw = VStr s → s ≠ EmptyString → finite_numbers raw →
  ∃ c, convert_record raw = Ok (Some (s, c)).
Proof.
  intros Hid Hs Hfin. unfold convert_record. fold (card_id raw).
  rewrite Hid. rewrite (proj2 (truthy_str s) Hs). cbn [negb].
  rewrite set_code_of_str. cbn [bind].
  assert (∀ k, k ∈ numeric_keys → ∃ n,
    coerce_int (Py.get_none raw k) = Ok n ∧
    coerce_str (Py.get_none raw k) = Ok (text_of n)) as Hnum.
  { intros k Hk%Hfin. eexists. split; [by apply coerce_int_spec|].
    by apply coerce_str_int, coerce_int_spec. }
  destruct (Hnum "card_cost") as (n1 & Hi1 & Hs1); [set_solver|].
  destruct (Hnum "card_power") as (n2 & _ & Hs2); [set_solver|].
  destruct (Hnum "counter_amount") as (n3 & _ & Hs3); [set_solver|].
  destruct (Hnum "life") as (n4 & _ & Hs4); [set_solver|].
  rewrite Hs1, Hs2, Hs3, Hs4, Hi1. simpl. eauto.
Qed.

(** Keys of the output dictionary. *)
Lemma dict_set_keys {V} (d : list (string * V)) (k k' : string) (v : V) :
  k' ∈ (dict_set d k v).*1 ↔ k' = k ∨ k' ∈ d.*1.
Proof.
  induction d as [|[k0 v0] d IH]; simpl.
  - rewrite list_elem_of_singleton, elem_of_nil. tauto.
  - destruct (String.eqb_spec k0 k) as [->|Hne]; simpl.
    + rewrite !elem_of_cons. tauto.
    + rewrite !elem_of_cons, IH. tauto.
Qed.

Lemma dict_set_NoDup {V} (d : list (string * V)) (k : string) (v : V) :
  NoDup d.*1 → NoDup (dict_set d k v).*1.
Proof.
  induction d as [|[k0 v0] d IH]; simpl.
  - intros _. apply NoDup_singleton.
  - intros [Hk0 Hd]%NoDup_cons. destruct (String.eqb_spec k0 k) as [->|Hne]; simpl.
    + by apply NoDup_cons.
    + apply NoDup_cons. split; [|by apply IH].
      rewrite dict_set_keys. intros [->|H]; done.
Qed.

Lemma convert_record_key (raw : raw) (key : string) (c : card) :
  convert_record raw = Ok (Some (key, c)) →
  raw !! "card_set_id" = Some (VStr key) ∧ key ≠ EmptyString.
Proof.
  intros (Ht & Hkey & _)%convert_record_Some.
  unfold card_id, Py.get in *.
  destruct (raw !! "card_set_id") as [[]|]; try done.
  injection Hkey as ->. split; [done|]. by apply truthy_str.
Qed.

Lemma convert_keys (raws : list raw) (acc d : list (string * card)) :
  for_each convert_step acc raws = Ok d →
  (NoDup acc.*1 → NoDup d.*1) ∧
  ∀ k, k ∈ d.*1 ↔
    k ∈ acc.*1 ∨
    ∃ r, r ∈ raws ∧ r !! "card_set_id" = Some (VStr k) ∧ k ≠ EmptyString.
Proof.
  revert acc. induction raws as [|raw raws IH]; intros acc; cbn [for_each].
  - intros [= <-]. split; [done|]. intros k. split; [auto|].
    intros [H|(r & Hr & _)]; [done|]. by apply elem_of_nil in Hr.
  - intros (acc' & Hstep & Hrest)%bind_ok.
    destruct (IH _ Hrest) as [Hnd Hkeys]. unfold convert_step in Hstep.
    apply bind_ok in Hstep as (entry & Hrec & Hentry).
    destruct entry as [[key c]|].
    + injection Hentry as <-.
      destruct (convert_record_key _ _ _ Hrec) as [Hid Hne].
      split; [intros H; by apply Hnd, dict_set_NoDup|].
      intros k. rewrite Hkeys, dict_set_keys. split.
      * intros [[->|H]|(r & Hr & H)]; [right|by left|right].
        -- exists raw. split; [by left|done].
        -- exists r. split; [by right|done].
      * intros [H|(r & [->|Hr]%elem_of_cons & Hr' & Hk)]; [by left; right| |].
        -- left; left. congruence.
        -- right. by exists r.
    + injection Hentry as <-. apply convert_record_None in Hrec.
      split; [done|]. intros k. rewrite Hkeys. split.
      * intros [H|(r & Hr & H)]; [by left|right].
        exists r. split; [by right|done].
      * intros [H|(r & [->|Hr]%elem_of_cons & Hr' & Hk)]; [by left| |].
        -- exfalso. unfold card_id, Py.get in Hrec. rewrite Hr' in Hrec.
           apply truthy_str in Hk. congruence.
        -- right. by exists r.
Qed.

#[global] Instance VDict_inj : Inj (=) (=) VDict.
Proof. by intros r1 r2 [= ->]. Qed.

(** * The claims *)

(** ** Collector *)

(** C2 (amended).  Across all source groups combined, the Collector's output
    holds each non-empty [card_set_id] at most once; the record kept for an
    identifier is the earliest record bearing it among those that pass the
    variant filter (no ["_p"] in [card_image_id]); a record whose
    [card_set_id] is empty or absent is never appended. *)
Theorem dedup_keeps_first_unfiltered (net : network) (out : list raw) :
  fetch_all_cards net = Ok out →
  ∃ rs : list raw,
    fetched net = VDict <$> rs ∧
    out `sublist_of` rs ∧
    NoDup (card_id <$> out) ∧
    ∀ r, r ∈ out →
      r !! "card_set_id" ≠ None ∧ r !! "card_set_id" ≠ Some (VStr "") ∧
      ∃ l1 l2, rs = l1 ++ r :: l2 ∧
        ∀ r', r' ∈ l1 → is_variant r' = Ok false → card_id r' ≠ card_id r.
Proof.
  rewrite fetch_all_cards_collect.
  intros (rs & st & Hrs & Hinv & ->)%collect_inv.
  exists rs. split; [done|]. split; [apply Hinv|]. split; [apply Hinv|].
  intros r Hr. destruct (inv_kept _ _ Hinv r Hr) as [_ Ht].
  destruct (card_id_truthy r Ht) as [H1 H2].
  split; [done|]. split; [done|]. by apply (inv_first _ _ Hinv).
Qed.

Lemma dedup_keeps_first_unfiltered_witness :
  ∃ rs : list raw,
    fetched (Sample.bulk_only
      [VDict Sample.luffy_parallel; VDict Sample.luffy; VDict Sample.luffy_dup])
      = VDict <$> rs ∧
    [Sample.luffy] `sublist_of` rs ∧
    NoDup (card_id <$> [Sample.luffy]) ∧
    ∀ r, r ∈ [Sample.luffy] →
      r !! "card_set_id" ≠ None ∧ r !! "card_set_id" ≠ Some (VStr "") ∧
      ∃ l1 l2, rs = l1 ++ r :: l2 ∧
        ∀ r', r' ∈ l1 → is_variant r' = Ok false → card_id r' ≠ card_id r.
Proof.
  apply (dedup_keeps_first_unfiltered (Sample.bulk_only
    [VDict Sample.luffy_parallel; VDict Sample.luffy; VDict Sample.luffy_dup])).
  vm_compute. reflexivity.
Defined.

(** C2 as stated fails: a variant that comes first bears the identifier
    earlier than the record that is kept. *)
Lemma dedup_first_seen_counterexample :
  fetch_all_cards
    (Sample.bulk_only [VDict Sample.luffy_parallel; VDict Sample.luffy_dup])
    = Ok [Sample.luffy_dup] ∧
  fetched
    (Sample.bulk_only [VDict Sample.luffy_parallel; VDict Sample.luffy_dup])
    = VDict <$> [Sample.luffy_parallel; Sample.luffy_dup] ∧
  card_id Sample.luffy_parallel = card_id Sample.luffy_dup ∧
  ¬ ∃ l1 l2,
      [Sample.luffy_parallel; Sample.luffy_dup] = l1 ++ Sample.luffy_dup :: l2 ∧
      ∀ r', r' ∈ l1 → card_id r' ≠ card_id Sample.luffy_dup.
Proof.
  split; [vm_compute; reflexivity|]. split; [vm_compute; reflexivity|].
  split; [vm_compute; reflexivity|].
  intros (l1 & l2 & Heq & Hfirst).
  destruct l1 as [|r1 l1].
  - pose proof (f_equal (λ l : list raw,
      default ∅ (head l) !! "card_name") Heq) as Hname.
    vm_compute in Hname. discriminate.
  - assert (r1 = Sample.luffy_parallel) as -> by (simpl in Heq; congruence).
    apply (Hfirst Sample.luffy_parallel); [by left|].
    vm_compute. reflexivity.
Qed.

(** C3.  A record whose [card_image_id] contains ["_p"] is not in the
    Collector's output, whatever its identifier. *)
Theorem variants_excluded (net : network) (out : list raw) (r : raw)
    (img : string) :
  fetch_all_cards net = Ok out →
  r !! "card_image_id" = Some (VStr img) → occurs "_p" img →
  r ∉ out.
Proof.
  rewrite fetch_all_cards_collect.
  intros (rs & st & Hrs & Hinv & ->)%collect_inv Himg Hocc Hr.
  destruct (inv_kept _ _ Hinv r Hr) as [Hv _].
  rewrite (is_variant_str _ _ Himg) in Hv.
  apply substring_occurs in Hocc. congruence.
Qed.

Lemma variants_excluded_witness :
  Sample.luffy_parallel ∉ [Sample.luffy_dup].
Proof.
  apply (variants_excluded
    (Sample.bulk_only [VDict Sample.luffy_parallel; VDict Sample.luffy_dup])
    [Sample.luffy_dup] Sample.luffy_parallel "OP01-001_p1").
  - vm_compute. reflexivity.
  - vm_compute. reflexivity.
  - apply substring_occurs. vm_compute. reflexivity.
Defined.

(** C9.  A variant leaves the Collector's state, and so the set of seen
    keys, as it was: the run with the variant in the stream gathers what the
    run without it gathers, and a variant-free record whose non-empty
    identifier was borne only by variants before it is collected. *)
Theorem variant_does_not_block :
  (∀ st n r, is_variant r = Ok true →
     add_card (st, n) (VDict r) = Ok (st, n)) ∧
  (∀ l1 l2 r, is_variant r = Ok true →
     collect (l1 ++ VDict r :: l2) = collect (l1 ++ l2)) ∧
  (∀ net out l1 l2 r s,
     fetch_all_cards net = Ok out →
     fetched net = VDict <$> (l1 ++ r :: l2) →
     is_variant r = Ok false → card_id r = VStr s → s ≠ EmptyString →
     (∀ r', r' ∈ l1 → card_id r' = VStr s → is_variant r' = Ok true) →
     r ∈ out).
Proof.
  split; [apply add_card_variant|]. split; [apply collect_variant|].
  intros net out l1 l2 r s Hout Hfetched Hv Hid Hs Hl1.
  rewrite fetch_all_cards_collect in Hout.
  apply collect_inv in Hout as (rs & st & Hrs & Hinv & ->).
  rewrite Hfetched in Hrs. apply (inj (fmap VDict)) in Hrs as <-.
  apply (inv_complete _ _ Hinv l1 r l2 s); try done.
  intros r' Hr' Hv' Hid'. rewrite Hid in Hid'.
  specialize (Hl1 r' Hr' Hid'). congruence.
Qed.

Lemma variant_does_not_block_witness :
  add_card (collector_init, 0) (VDict Sample.luffy_parallel)
    = Ok (collector_init, 0) ∧
  collect [VDict Sample.luffy_parallel; VDict Sample.luffy_dup]
    = collect [VDict Sample.luffy_dup] ∧
  Sample.luffy_dup ∈ [Sample.luffy_dup].
Proof.
  destruct variant_does_not_block as (Hstep & Hdrop & Hkept).
  split; [apply Hstep; vm_compute; reflexivity|].
  split; [apply (Hdrop [] [VDict Sample.luffy_dup]); vm_compute; reflexivity|].
  apply (Hkept
    (Sample.bulk_only [VDict Sample.luffy_parallel; VDict Sample.luffy_dup])
    [Sample.luffy_dup] [Sample.luffy_parallel] [] Sample.luffy_dup "OP01-001").
  - vm_compute. reflexivity.
  - vm_compute. reflexivity.
  - vm_compute. reflexivity.
  - vm_compute. reflexivity.
  - done.
  - intros r' ->%list_elem_of_singleton _. vm_compute. reflexivity.
Defined.

(** ** Transformer *)

(** C1 (amended).  For every raw record and each of the four numeric fields
    whose value is not an infinite float, the coercion does not raise and
    yields an integer: zero when the value is absent, [None] or fails the
    conversion, and otherwise the integer [int] gives, which is
    non-negative unless the value itself is negative.  The output fields
    of a transformed record carry exactly these integers, the text fields
    as decimal text, or as ["0"] where [str] refuses the integer. *)
Theorem numeric_coercion_total (raw : raw) (k : string) :
  k ∈ numeric_keys →
  is_infinite (Py.get_none raw k) = false →
  ∃ n : Z,
    coerce_int (Py.get_none raw k) = Ok n ∧
    coerce_str (Py.get_none raw k) = Ok (text_of n) ∧
    (raw !! k = None ∨ raw !! k = Some VNone ∨
     Py.int (Py.get_none raw k) = Raise ValueError ∨
     Py.int (Py.get_none raw k) = Raise TypeError → n = 0) ∧
    (∀ m, Py.int (Py.get_none raw k) = Ok m → n = m) ∧
    (negative (Py.get_none raw k) = false → 0 ≤ n) ∧
    ∀ key c, convert_record raw = Ok (Some (key, c)) →
      (k = "card_cost"%string →
         cost c = n ∧ front_cost (face c) = n ∧ Cost c = text_of n) ∧
      (k = "card_power"%string → Power c = text_of n) ∧
      (k = "counter_amount"%string → Counter c = text_of n) ∧
      (k = "life"%string → Life c = text_of n).
Proof.
  intros Hk Hfin. pose proof (coerce_int_spec _ Hfin) as Hint.
  set (x := Py.get_none raw k) in *.
  exists (match Py.int x with Ok n => n | Raise _ => 0 end).
  split; [done|]. split; [by apply coerce_str_int|].
  split; [|split; [|split]].
  - intros [H|[H|[H|H]]].
    + subst x. unfold Py.get_none, Py.get. by rewrite H.
    + subst x. unfold Py.get_none, Py.get. by rewrite H.
    + by rewrite H.
    + by rewrite H.
  - intros m Hm. by rewrite Hm.
  - intros Hneg. destruct (Py.int x) as [n|e] eqn:E; [|done].
    by apply (int_nonneg x).
  - intros key c Hc. apply convert_record_Some in Hc
      as (_ & _ & _ & Hcost & Hcost' & Hpower & Hcounter & Hlife & _ & _ & _
          & _ & _ & Hface).
    subst x. pose proof (coerce_str_int _ _ Hint) as Hstr.
    split; [|split; [|split]]; intros ->.
    + split; [congruence|]. split; [|congruence].
      rewrite Hface. simpl. congruence.
    + congruence.
    + congruence.
    + congruence.
Qed.

Lemma numeric_coercion_total_witness :
  ∃ n : Z,
    coerce_int (Py.get_none Sample.wide "card_cost") = Ok n ∧
    coerce_str (Py.get_none Sample.wide "card_cost") = Ok (text_of n) ∧
    (Sample.wide !! "card_cost" = None ∨
     Sample.wide !! "card_cost" = Some VNone ∨
     Py.int (Py.get_none Sample.wide "card_cost") = Raise ValueError ∨
     Py.int (Py.get_none Sample.wide "card_cost") = Raise TypeError → n = 0) ∧
    (∀ m, Py.int (Py.get_none Sample.wide "card_cost") = Ok m → n = m) ∧
    (negative (Py.get_none Sample.wide "card_cost") = false → 0 ≤ n) ∧
    ∀ key c, convert_record Sample.wide = Ok (Some (key, c)) →
      (("card_cost" : string) = "card_cost"%string →
         cost c = n ∧ front_cost (face c) = n ∧ Cost c = text_of n) ∧
      (("card_cost" : string) = "card_power"%string → Power c = text_of n) ∧
      (("card_cost" : string) = "counter_amount"%string →
         Counter c = text_of n) ∧
      (("card_cost" : string) = "life"%string → Life c = text_of n).
Proof.
  apply (numeric_coercion_total Sample.wide "card_cost").
  - apply list_elem_of_In. simpl. tauto.
  - vm_compute. reflexivity.
Defined.

(** C1 as stated fails twice over: a negative number is coerced to a
    negative integer, and an infinite float makes the coercion raise. *)
Lemma numeric_coercion_counterexample :
  coerce_int (Py.get_none Sample.debt "card_cost") = Ok (-1) ∧
  (∃ c, convert_record Sample.debt = Ok (Some ("OP01-002"%string, c)) ∧
        cost c = -1 ∧ Cost c = "-1"%string) ∧
  coerce_int (Py.get_none Sample.boundless "card_cost") = Raise OverflowError ∧
  convert_to_tcg_arena [Sample.boundless] = Raise OverflowError ∧
  ¬ (∀ (raw : raw) (k : string), k ∈ numeric_keys →
       ∃ n, coerce_int (Py.get_none raw k) = Ok n ∧ 0 ≤ n).
Proof.
  split; [vm_compute; reflexivity|].
  split; [eexists; split; [vm_compute; reflexivity|by vm_compute]|].
  split; [vm_compute; reflexivity|]. split; [vm_compute; reflexivity|].
  intros H. destruct (H Sample.debt "card_cost") as (n & Hn & Hpos).
  - apply list_elem_of_In. simpl. tauto.
  - vm_compute in Hn. injection Hn as <-. lia.
Qed.

(** C4.  The group code (the ["Set"] field) of a transformed record is the
    identifier's prefix before its last ["-"], and the whole identifier
    when it has no ["-"]. *)
Theorem group_code_derivation (raw : raw) (key : string) (c : card) :
  convert_record raw = Ok (Some (key, c)) →
  raw !! "card_set_id" = Some (VStr key) ∧ key ≠ EmptyString ∧
  (∀ pre suf, key = pre +:+ "-" +:+ suf → ¬ occurs "-" suf →
     Set_ c = VStr pre) ∧
  (¬ occurs "-" key → Set_ c = VStr key).
Proof.
  intros Hc. destruct (convert_record_key _ _ _ Hc) as [Hid Hne].
  apply convert_record_Some in Hc as (_ & _ & Hset & _).
  unfold card_id, Py.get in Hset. rewrite Hid, set_code_of_str in Hset.
  injection Hset as <-. unfold Py.rsplit1.
  split; [done|]. split; [done|]. split.
  - intros pre suf Hkey Hsuf.
    assert (Py.rcut "-" key = Some (pre, suf)) as -> by (by apply rcut_Some).
    done.
  - intros Hkey. apply rcut_None in Hkey. by rewrite Hkey.
Qed.

Lemma group_code_derivation_witness :
  ∃ c1 c2,
    convert_record Sample.stage = Ok (Some ("OP01-077"%string, c1)) ∧
    Set_ c1 = VStr "OP01" ∧
    convert_record Sample.nameless = Ok (Some ("PROMO"%string, c2)) ∧
    Set_ c2 = VStr "PROMO".
Proof.
  eexists _, _.
  assert (∀ s, Py.substring "-" s = false → ¬ occurs "-" s) as Hno.
  { intros s Hs Hocc%substring_occurs. congruence. }
  split; [vm_compute; reflexivity|]. split.
  - refine (proj1 (proj2 (proj2 (group_code_derivation Sample.stage
      "OP01-077" _ _))) "OP01"%string "077"%string eq_refl (Hno _ _));
      vm_compute; reflexivity.
  - split; [vm_compute; reflexivity|].
    refine (proj2 (proj2 (proj2 (group_code_derivation Sample.nameless
      "PROMO" _ _))) (Hno _ _)); vm_compute; reflexivity.
Defined.

(** C5.  In a transformed record [isHorizontal] is true exactly when the
    category, [card_type] or its default, is the string ["Stage"]. *)
Theorem horizontal_iff_stage (raw : raw) (key : string) (c : card) :
  convert_record raw = Ok (Some (key, c)) →
  type_ c = Py.get raw "card_type" (VStr "Character") ∧
  (isHorizontal c = true ↔ type_ c = VStr "Stage") ∧
  (isHorizontal c = false ↔ type_ c ≠ VStr "Stage") ∧
  front_isHorizontal (face c) = isHorizontal c.
Proof.
  intros (_ & _ & _ & _ & _ & _ & _ & _ & _ & _ & Htype & _ & Hflag & Hface)
    %convert_record_Some.
  split; [done|]. rewrite Hflag, Hface. simpl.
  split; [apply eqb_str_r|]. split; [|done].
  rewrite <-not_true_iff_false. by rewrite eqb_str_r.
Qed.

Lemma horizontal_iff_stage_witness :
  ∃ c,
    convert_record Sample.stage = Ok (Some ("OP01-077"%string, c)) ∧
    type_ c = Py.get Sample.stage "card_type" (VStr "Character") ∧
    (isHorizontal c = true ↔ type_ c = VStr "Stage") ∧
    (isHorizontal c = false ↔ type_ c ≠ VStr "Stage") ∧
    front_isHorizontal (face c) = isHorizontal c.
Proof.
  eexists. split; [vm_compute; reflexivity|].
  apply (horizontal_iff_stage Sample.stage "OP01-077").
  vm_compute. reflexivity.
Defined.

(** C10.  When [card_name] is absent the name of the transformed record is
    ["Unknown"], and when [card_type] is absent its category is
    ["Character"] and the record is not horizontal; the [face.front]
    sub-object says the same. *)
Theorem absent_name_type_defaults (raw : raw) (key : string) (c : card) :
  convert_record raw = Ok (Some (key, c)) →
  (raw !! "card_name" = None →
     name c = VStr "Unknown" ∧ front_name (face c) = VStr "Unknown") ∧
  (raw !! "card_type" = None →
     type_ c = VStr "Character" ∧ front_type (face c) = VStr "Character" ∧
     isHorizontal c = false ∧ front_isHorizontal (face c) = false).
Proof.
  intros (_ & _ & _ & _ & _ & _ & _ & _ & _ & Hname & Htype & _ & Hflag & Hface)
    %convert_record_Some.
  rewrite Hface. simpl. unfold Py.get in Hname, Htype. split.
  - intros H. rewrite H in Hname. done.
  - intros H. rewrite H in Htype. rewrite Hflag, Htype. done.
Qed.

Lemma absent_name_type_defaults_witness :
  ∃ c,
    convert_record Sample.nameless = Ok (Some ("PROMO"%string, c)) ∧
    (name c = VStr "Unknown" ∧ front_name (face c) = VStr "Unknown") ∧
    (type_ c = VStr "Character" ∧ front_type (face c) = VStr "Character" ∧
     isHorizontal c = false ∧ front_isHorizontal (face c) = false).
Proof.
  eexists. split; [vm_compute; reflexivity|].
  split.
  - refine (proj1 (absent_name_type_defaults Sample.nameless "PROMO" _ _) _);
      vm_compute; reflexivity.
  - refine (proj2 (absent_name_type_defaults Sample.nameless "PROMO" _ _) _);
      vm_compute; reflexivity.
Defined.

(** C7.  A record without identifier ([card_set_id] absent or empty) is
    passed over without an exception and leaves the mapping as it is; the
    keys of the mapping returned are exactly the non-empty [card_set_id]
    strings of the input records, each once. *)
Theorem records_without_identifier_skipped :
  (∀ (raw : raw) card_list,
     raw !! "card_set_id" = None ∨ raw !! "card_set_id" = Some (VStr "") →
     convert_record raw = Ok None ∧
     convert_step card_list raw = Ok card_list) ∧
  (∀ raw_cards card_list,
     convert_to_tcg_arena raw_cards = Ok card_list →
     NoDup card_list.*1 ∧
     ∀ k, k ∈ card_list.*1 ↔
       ∃ r, r ∈ raw_cards ∧
            r !! "card_set_id" = Some (VStr k) ∧ k ≠ EmptyString).
Proof.
  split.
  - intros raw card_list Hid.
    assert (convert_record raw = Ok None) as Hnone.
    { apply convert_record_None. unfold card_id, Py.get.
      by destruct Hid as [-> | ->]. }
    split; [done|]. unfold convert_step. by rewrite Hnone.
  - intros raw_cards card_list Hrun.
    destruct (convert_keys _ _ _ Hrun) as [Hnd Hkeys].
    split; [apply Hnd; constructor|].
    intros k. rewrite Hkeys. simpl. rewrite elem_of_nil. tauto.
Qed.

Lemma records_without_identifier_skipped_witness :
  (convert_record Sample.anonymous = Ok None ∧
   convert_step [] Sample.anonymous = Ok []) ∧
  ∃ c, convert_to_tcg_arena [Sample.anonymous; Sample.nameless]
         = Ok [("PROMO"%string, c)] ∧
       NoDup [("PROMO"%string, c)].*1 ∧
       ∀ k, k ∈ [("PROMO"%string, c)].*1 ↔
         ∃ r, r ∈ [Sample.anonymous; Sample.nameless] ∧
              r !! "card_set_id" = Some (VStr k) ∧ k ≠ EmptyString.
Proof.
  destruct records_without_identifier_skipped as [Hskip Hkeys].
  split.
  - apply Hskip. left. vm_compute. reflexivity.
  - eexists. split; [vm_compute; reflexivity|].
    apply Hkeys. vm_compute. reflexivity.
Defined.

(** C6.  The two Luffy records, collected and then transformed, give a
    mapping with the single entry ["OP01-001"], named ["Luffy"], of cost
    0; a whole run over a service that serves the two ends the same way. *)
Theorem end_to_end_luffy :
  ∃ c,
    (raw_cards <- collect [VDict Sample.luffy; VDict Sample.luffy_dup];;
     convert_to_tcg_arena raw_cards) = Ok [("OP01-001"%string, c)] ∧
    written (main Insertion.sorted
      (Sample.bulk_only [VDict Sample.luffy; VDict Sample.luffy_dup]))
      = Some [("OP01-001"%string, c)] ∧
    id c = VStr "OP01-001" ∧ name c = VStr "Luffy" ∧
    type_ c = VStr "Leader" ∧ cost c = 0 ∧ Cost c = "0"%string.
Proof.
  eexists. split; [vm_compute; reflexivity|].
  split; [vm_compute; reflexivity|]. by vm_compute.
Qed.

(** ** The sort and [main] *)

Lemma insert_perm {A} (key : A → list value) (x : A) (l l' : list A) :
  Insertion.insert key x l = Ok l' → l' ≡ₚ x :: l.
Proof.
  revert l'. induction l as [|y l IH]; intros l'; simpl.
  - by intros [= <-].
  - intros (before & _ & H)%bind_ok. destruct before.
    + by injection H as <-.
    + apply bind_ok in H as (l'' & Hl'' & [= <-]).
      rewrite (IH _ Hl''). apply Permutation_swap.
Qed.

Lemma insertion_sorted_perm {A} (key : A → list value) (l acc l' : list A) :
  for_each (λ acc x, Insertion.insert key x acc) acc l = Ok l' →
  l' ≡ₚ acc ++ l.
Proof.
  revert acc. induction l as [|x l IH]; intros acc; simpl.
  - intros [= <-]. by rewrite app_nil_r.
  - intros (acc' & Hins & Hrest)%bind_ok.
    rewrite (IH _ Hrest), (insert_perm _ _ _ _ Hins).
    simpl. apply Permutation_middle.
Qed.

Lemma tuple_lt_ok (kinds : list kind) (a b : list value) :
  Forall2 has_kind kinds a → Forall2 has_kind kinds b →
  ∃ r, Insertion.tuple_lt a b = Ok r.
Proof.
  intros Ha. revert b. induction Ha as [|k x kinds a Hx Ha IH]; intros b Hb.
  - inversion Hb; subst. by eexists.
  - inversion Hb as [|k' y kinds' b' Hy Hb']; subst. simpl.
    destruct (Py.eqb x y); [by apply IH|].
    destruct k, x, y; try done; by eexists.
Qed.

Lemma insert_ok {A} (key : A → list value) (kinds : list kind) (x : A)
    (l : list A) :
  Forall2 has_kind kinds (key x) →
  Forall (λ y, Forall2 has_kind kinds (key y)) l →
  ∃ l', Insertion.insert key x l = Ok l'.
Proof.
  intros Hx. induction 1 as [|y l Hy Hl IH]; simpl; [by eexists|].
  destruct (tuple_lt_ok kinds _ _ Hx Hy) as [[|] ->]; simpl; [by eexists|].
  destruct IH as [l'' ->]. by eexists.
Qed.

Lemma insertion_sorted_ok {A} (key : A → list value) (kinds : list kind)
    (l acc : list A) :
  Forall (λ y, Forall2 has_kind kinds (key y)) acc →
  Forall (λ y, Forall2 has_kind kinds (key y)) l →
  ∃ l', for_each (λ acc x, Insertion.insert key x acc) acc l = Ok l'.
Proof.
  intros Hacc Hl. revert acc Hacc.
  induction Hl as [|x l Hx Hl IH]; intros acc Hacc; simpl; [by eexists|].
  destruct (insert_ok key kinds x acc Hx Hacc) as [acc' Hins].
  rewrite Hins. simpl. apply IH.
  rewrite (insert_perm _ _ _ _ Hins). by constructor.
Qed.

(** The insertion sort is a sort in the sense of [sorter_spec]. *)
Lemma insertion_sorter_spec : sorter_spec Insertion.sorted.
Proof.
  split.
  - intros A key l l' H. by apply insertion_sorted_perm in H.
  - intros A key l kinds H. by apply (insertion_sorted_ok key kinds).
Qed.

(** Tidy records go through the Transformer, and the cards they give have
    a string for category and for colour. *)
Lemma tidy_card_id (r : raw) : tidy r = true → is_str (card_id r).
Proof.
  intros (Hid & _)%tidy_spec. unfold card_id, Py.get.
  destruct (r !! "card_set_id") as [[]|]; try done; by eexists.
Qed.

Lemma tidy_sort_key (r : raw) :
  tidy r = true → Forall2 has_kind [KStr; KStr] (sort_key r).
Proof.
  intros (Hid & Hset & _)%tidy_spec. unfold sort_key, Py.get.
  destruct (r !! "card_set_id") as [[]|]; try done;
    destruct (r !! "set_id") as [[]|]; try done; by repeat constructor.
Qed.

(** What the file can hold: a prefix of a text it can hold, a decimal
    text, and with them every field of the card of a tidy record. *)
Lemma has_surrogate_app (s t : string) :
  Py.has_surrogate s = true → Py.has_surrogate (s +:+ t) = true.
Proof.
  induction s as [|a s IH]; [done|].
  change (String a s +:+ t) with (String a (s +:+ t)).
  cbn [Py.has_surrogate]. intros [H|H]%orb_true_iff.
  - apply andb_true_iff in H as [Ha Hb]. destruct s as [|b s]; [done|].
    change (String b s +:+ t) with (String b (s +:+ t)).
    by rewrite Ha, Hb.
  - rewrite (IH H). apply orb_true_r.
Qed.

Lemma encodable_prefix (s t : string) :
  Py.encodable (s +:+ t) = true → Py.encodable s = true.
Proof.
  unfold Py.encodable. rewrite !negb_true_iff. intros H.
  destruct (Py.has_surrogate s) eqn:E; [|done].
  by rewrite (has_surrogate_app s t E) in H.
Qed.

Lemma set_code_encodable (s : string) :
  Py.encodable s = true →
  Py.encodable (hd EmptyString (Py.rsplit1 "-" s)) = true.
Proof.
  intros Hs. unfold Py.rsplit1.
  destruct (Py.rcut "-" s) as [[pre suf]|] eqn:R; [|done].
  apply rcut_Some in R as [-> _]. by apply encodable_prefix in Hs.
Qed.

Lemma uint_encodable (d : Decimal.uint) :
  Py.has_surrogate (NilEmpty.string_of_uint d) = false.
Proof.
  induction d as [|d IH|d IH|d IH|d IH|d IH|d IH|d IH|d IH|d IH|d IH];
    [done|..]; cbn [NilEmpty.string_of_uint Py.has_surrogate];
    by rewrite IH.
Qed.

Lemma decimal_encodable (n : Z) : Py.encodable (Py.decimal n) = true.
Proof.
  unfold Py.encodable, Py.decimal. apply negb_true_iff.
  assert (∀ d, Py.has_surrogate (NilZero.string_of_uint d) = false) as Hd.
  { intros d. destruct d; try done; apply uint_encodable. }
  destruct n as [|p|p]; [done|apply Hd|].
  cbn [Z.to_int NilZero.string_of_int Py.has_surrogate].
  by rewrite Hd.
Qed.

Lemma text_of_encodable (n : Z) : Py.encodable (text_of n) = true.
Proof.
  unfold text_of. destruct (str_cases n) as [-> | ->]; [|done].
  apply decimal_encodable.
Qed.

Lemma coerce_str_decimal (x : value) (s : string) :
  coerce_str x = Ok s → ∃ n, coerce_int x = Ok n ∧ s = text_of n.
Proof.
  unfold coerce_int, coerce_str.
  destruct x; try (intros [= <-]; by exists 0);
    (destruct (Py.int _) as [m|[]]; cbn [bind];
     [|intros [= <-]; by exists 0..];
     intros H; exists m; split; [done|]; unfold text_of;
     destruct (str_cases m) as [E|E]; rewrite E in *; by injection H).
Qed.

Lemma coerce_str_encodable (x : value) (s : string) :
  coerce_str x = Ok s → Py.encodable s = true.
Proof. intros (n & _ & ->)%coerce_str_decimal. apply text_of_encodable. Qed.

Lemma get_writable (r : raw) (k default : string) :
  plain (Py.get_none r k) = true → Py.encodable default = true →
  Json.writable (Py.get r k (VStr default)) = true.
Proof.
  unfold Py.get_none, Py.get. destruct (r !! k) as [v|]; [|done].
  by destruct v.
Qed.

Lemma convert_record_copied (raw : raw) (key : string) (c : card) :
  convert_record raw = Ok (Some (key, c)) →
  Attribute c = Py.get raw "attribute" (VStr "") ∧
  Subtypes c = Py.get raw "sub_types" (VStr "") ∧
  Text c = Py.get raw "card_text" (VStr "") ∧
  Rarity c = Py.get raw "rarity" (VStr "").
Proof.
  unfold convert_record.
  destruct (Py.truthy _); [|done]. cbn [negb].
  intros (set_code & Hset & H)%bind_ok.
  apply bind_ok in H as (cost_val & Hcost & H).
  apply bind_ok in H as (power_val & Hpower & H).
  apply bind_ok in H as (counter_val & Hcounter & H).
  apply bind_ok in H as (life_val & Hlife & H).
  apply bind_ok in H as (cost_int & Hint & H).
  apply bind_ok in H as (key' & Hkey & [= <- <-]).
  done.
Qed.

Lemma convert_record_tidy (r : raw) :
  tidy r = true →
  convert_record r = Ok None ∨
  ∃ k c, convert_record r = Ok (Some (k, c)) ∧ sound_entry (k, c).
Proof.
  intros Ht. destruct (tidy_card_id r Ht) as [s Hid].
  destruct (String.eqb_spec s "") as [->|Hs].
  { left. apply convert_record_None. by rewrite Hid. }
  right.
  apply tidy_spec in Ht as (_ & _ & Htype & Hcolor & _ & Hfin & Hplain & Hcost).
  destruct (convert_record_total r s Hid Hs Hfin) as [c Hc].
  exists s, c. split; [done|].
  assert (∀ k default, k ∈ copied_keys → Py.encodable default = true →
    Json.writable (Py.get r k (VStr default)) = true) as Hget.
  { intros k default Hk. by apply get_writable, Hplain. }
  assert (Py.encodable s = true) as Hkey.
  { specialize (Hget "card_set_id"%string ""%string).
    fold (card_id r) in Hget. rewrite Hid in Hget.
    apply Hget; [set_solver|done]. }
  destruct (convert_record_copied _ _ _ Hc) as (Hattr & Hsub & Htext & Hrar).
  apply convert_record_Some in Hc
    as (_ & _ & Hset & Hint & HCost & HPower & HCounter & HLife & Hid'
        & Hname & Htype' & Hcolor' & _ & Hface).
  rewrite Hid, set_code_of_str in Hset. injection Hset as Hset.
  unfold printable in Hcost. rewrite Hint in Hcost.
  unfold sound_entry. cbn [fst snd].
  split; [|split; [|split; [done|]]].
  - rewrite Htype'. unfold Py.get.
    destruct (r !! "card_type") as [[]|]; try done; by eexists.
  - rewrite Hcolor'. unfold Py.get.
    destruct (r !! "card_color") as [[]|]; try done; by eexists.
  - unfold Json.writable_card. rewrite Hface.
    cbn [front_name front_type front_cost front_image].
    rewrite Hid', Hid, Hname, Htype', Hcolor', Hattr, Hsub, Htext, Hrar, <-Hset.
    rewrite Hcost, (coerce_str_encodable _ _ HCost),
      (coerce_str_encodable _ _ HPower), (coerce_str_encodable _ _ HCounter),
      (coerce_str_encodable _ _ HLife).
    rewrite !Hget by (done || set_solver).
    cbn [Json.writable]. by rewrite Hkey, (set_code_encodable s Hkey).
Qed.

Lemma dict_set_Forall {V} (P : string * V → Prop) (d : list (string * V))
    (k : string) (v : V) :
  Forall P d → P (k, v) → Forall P (dict_set d k v).
Proof.
  intros Hd Hkv. induction Hd as [|[k0 v0] d H0 Hd IH]; simpl.
  - by constructor.
  - destruct (String.eqb k0 k); by constructor.
Qed.

Lemma convert_tidy (raw_cards : list raw) (acc : list (string * card)) :
  Forall (λ r, tidy r = true) raw_cards →
  Forall sound_entry acc →
  ∃ card_list,
    for_each convert_step acc raw_cards = Ok card_list ∧
    Forall sound_entry card_list.
Proof.
  intros Hraw. revert acc.
  induction Hraw as [|r raw_cards Hr Hraw IH]; intros acc Hacc; simpl.
  - by exists acc.
  - unfold convert_step at 1.
    destruct (convert_record_tidy r Hr) as [->|(k & c & -> & Hc)]; simpl.
    + by apply IH.
    + apply IH. by apply dict_set_Forall.
Qed.

Lemma dump_sound (card_list : list (string * card)) :
  Forall sound_entry card_list → Json.dump card_list = Ok ().
Proof.
  intros H. unfold Json.dump.
  assert (forallb (λ entry, Py.encodable entry.1 && Json.writable_card entry.2)
            card_list = true) as ->; [|done].
  apply forallb_forall. intros entry Hin%list_elem_of_In.
  rewrite Forall_forall in H. destruct (H _ Hin) as (_ & _ & -> & ->). done.
Qed.

Section Summary.
Context (py_sorted : sorter) (Hsorter : sorter_spec py_sorted).

Lemma incr_str (counts : list (value * Z)) (k : value) :
  Forall (λ item, Forall2 has_kind [KStr; KInt] [item.1; VInt item.2]) counts →
  is_str k →
  Forall (λ item, Forall2 has_kind [KStr; KInt] [item.1; VInt item.2])
    (incr counts k).
Proof.
  intros Hcounts [s ->].
  induction Hcounts as [|[k0 n0] counts H0 Hcounts IH]; simpl.
  - by repeat constructor.
  - destruct (Py.eqb k0 (VStr s)); constructor; try done.
    simpl in *. inversion H0; subst. by repeat constructor.
Qed.

Lemma summary_tidy (card_list : list (string * card)) :
  Forall (λ kc, is_str (type_ kc.2) ∧ is_str (Color kc.2)) card_list →
  ∃ type_counts, summary py_sorted card_list = Ok type_counts.
Proof.
  intros Hcards. unfold summary.
  assert (∀ acc,
    Forall (λ item, Forall2 has_kind [KStr; KInt] [item.1; VInt item.2]) acc →
    ∃ type_counts,
      for_each (λ type_counts c,
        type_counts <- count type_counts (type_ c);;
        _ <- check_colors (Color c);; Ok type_counts) acc card_list.*2
        = Ok type_counts ∧
      Forall (λ item, Forall2 has_kind [KStr; KInt] [item.1; VInt item.2])
        type_counts) as Hloop.
  { induction Hcards as [|[k c] card_list [[t Ht] [col Hcol]] Hcards IH];
      intros acc Hacc; simpl; [by exists acc|].
    simpl in Ht, Hcol. rewrite Ht, Hcol. unfold count, check_colors.
    cbn [Py.hashable bind]. destruct (Py.truthy (VStr col)); cbn [bind];
      apply IH, incr_str; try done; by exists t. }
  destruct (Hloop [] ltac:(constructor)) as (type_counts & -> & Hcounts).
  cbn [bind]. by apply (sorted_ok _ Hsorter _ _ _ [KStr; KInt]).
Qed.
End Summary.

(** C8 (amended).  When the records served are tidy (string identifier,
    set identifier, category and colour where present, a string or null
    image reference, no infinite number, and in the fields copied to the
    output only scalars that the file can hold: no lone surrogate, no
    integer beyond the digit limit), the process ends with a non-zero
    status exactly when the Collector returns no record; with at least one
    record the run sorts, transforms, writes the card list and ends with
    status zero. *)
Theorem exit_status_tidy (py_sorted : sorter) (net : network) :
  sorter_spec py_sorted → tidy_network net →
  ∃ raw_cards,
    fetch_all_cards net = Ok raw_cards ∧
    (exit_status (main py_sorted net) ≠ 0 ↔ raw_cards = []) ∧
    (raw_cards = [] →
       main py_sorted net = {| exit_status := 1; written := None |}) ∧
    (raw_cards ≠ [] →
       ∃ sorted card_list,
         py_sorted _ sort_key raw_cards = Ok sorted ∧
         convert_to_tcg_arena sorted = Ok card_list ∧
         main py_sorted net
           = {| exit_status := 0; written := Some card_list |}).
Proof.
  intros Hsorter Hnet.
  destruct (fetch_all_cards_tidy net Hnet) as (raw_cards & Hfetch & Htidy).
  exists raw_cards. split; [done|].
  destruct raw_cards as [|r raw_cards].
  { unfold main. rewrite Hfetch. simpl. repeat split; done. }
  destruct (sorted_ok _ Hsorter _ sort_key (r :: raw_cards) [KStr; KStr])
    as [sorted Hsorted].
  { eapply Forall_impl; [exact Htidy|]. intros r'. apply tidy_sort_key. }
  assert (Forall (λ r, tidy r = true) sorted) as Htidy'.
  { by rewrite (sorted_perm _ Hsorter _ _ _ _ Hsorted). }
  destruct (convert_tidy sorted [] Htidy' ltac:(constructor))
    as (card_list & Hconv & Hcards).
  destruct (summary_tidy py_sorted Hsorter card_list) as [counts Hsum].
  { eapply Forall_impl; [exact Hcards|]. by intros entry (? & ? & _). }
  assert (main py_sorted net = {| exit_status := 0; written := Some card_list |})
    as Hmain.
  { unfold main, convert_to_tcg_arena.
    by rewrite Hfetch, Hsorted, Hconv, (dump_sound _ Hcards), Hsum. }
  rewrite Hmain. simpl. split; [split; done|]. split; [done|].
  intros _. by exists sorted, card_list.
Qed.

Lemma exit_status_tidy_witness :
  ∃ raw_cards,
    fetch_all_cards
      (Sample.bulk_only [VDict Sample.stage; VDict Sample.luffy])
      = Ok raw_cards ∧
    (exit_status (main Insertion.sorted
       (Sample.bulk_only [VDict Sample.stage; VDict Sample.luffy])) ≠ 0
     ↔ raw_cards = []) ∧
    (raw_cards = [] →
       main Insertion.sorted
         (Sample.bulk_only [VDict Sample.stage; VDict Sample.luffy])
         = {| exit_status := 1; written := None |}) ∧
    (raw_cards ≠ [] →
       ∃ sorted card_list,
         Insertion.sorted _ sort_key raw_cards = Ok sorted ∧
         convert_to_tcg_arena sorted = Ok card_list ∧
         main Insertion.sorted
           (Sample.bulk_only [VDict Sample.stage; VDict Sample.luffy])
           = {| exit_status := 0; written := Some card_list |}).
Proof.
  apply (exit_status_tidy Insertion.sorted
    (Sample.bulk_only [VDict Sample.stage; VDict Sample.luffy])).
  - exact insertion_sorter_spec.
  - intros [|n] url; simpl; [|constructor].
    repeat constructor; vm_compute; reflexivity.
Defined.

(** C8 as stated fails: a run that has collected a record still ends with
    a non-zero status when an exception escapes, from the coercion of an
    infinite cost before anything is written, from [json.dump] on a name
    that is a lone surrogate, or from the summary, after the file is
    written, when one category is null and another a string. *)
Lemma exit_status_counterexample :
  fetch_all_cards (Sample.bulk_only [VDict Sample.boundless])
    = Ok [Sample.boundless] ∧
  main Insertion.sorted (Sample.bulk_only [VDict Sample.boundless])
    = {| exit_status := 1; written := None |} ∧
  fetch_all_cards (Sample.bulk_only [VDict Sample.unwritable])
    = Ok [Sample.unwritable] ∧
  (∃ card_list,
     convert_to_tcg_arena [Sample.unwritable] = Ok card_list ∧
     Json.dump card_list = Raise ValueError) ∧
  main Insertion.sorted (Sample.bulk_only [VDict Sample.unwritable])
    = {| exit_status := 1; written := None |} ∧
  fetch_all_cards (Sample.bulk_only [VDict Sample.luffy; VDict Sample.untyped])
    = Ok [Sample.luffy; Sample.untyped] ∧
  exit_status (main Insertion.sorted
    (Sample.bulk_only [VDict Sample.luffy; VDict Sample.untyped])) = 1 ∧
  (λ card_list : list (string * card), card_list.*1) <$>
    written (main Insertion.sorted
      (Sample.bulk_only [VDict Sample.luffy; VDict Sample.untyped]))
    = Some ["OP01-001"%string; "OP01-004"%string].
Proof.
  split; [vm_compute; reflexivity|]. split; [vm_compute; reflexivity|].
  split; [vm_compute; reflexivity|].
  split; [eexists; split; vm_compute; reflexivity|].
  split; [vm_compute; reflexivity|].
  split; [vm_compute; reflexivity|]. split; [vm_compute; reflexivity|].
  vm_compute. reflexivity.
Qed.

(** * Further properties *)

(** ** The Collector, call by call *)

Lemma for_each_add_card_appends (cards : list value) (st st' : collector)
    (n n' : Z) :
  for_each add_card (st, n) cards = Ok (st', n') →
  ∃ new : list raw,
    all_raw st' = all_raw st ++ new ∧
    seen st' = seen st ++ (card_id <$> new) ∧
    n' = n + Z.of_nat (length new) ∧
    Forall (λ r, VDict r ∈ cards) new.
Proof.
  revert st n. induction cards as [|c cards IH]; intros st n; cbn [for_each].
  - intros [= <- <-]. exists []. simpl. rewrite !app_nil_r. split; [done|].
    split; [done|]. split; [lia|constructor].
  - intros ([st1 n1] & Hstep & Hrest)%bind_ok.
    destruct (IH _ _ Hrest) as (new & Hraw & Hseen & Hn & Hin).
    assert (Forall (λ r, VDict r ∈ c :: cards) new) as Hin'.
    { eapply Forall_impl; [exact Hin|]. intros r Hr. by right. }
    destruct c as [| | | | | |r]; try done. simpl in Hstep.
    destruct (is_variant r) as [[|]|e]; simpl in Hstep; [| |done].
    { injection Hstep as <- <-. by exists new. }
    destruct (Py.truthy (card_id r)).
    2:{ injection Hstep as <- <-. by exists new. }
    destruct (Py.set_mem (card_id r) (seen st)) as [[|]|e]; simpl in Hstep;
      [| |done].
    { injection Hstep as <- <-. by exists new. }
    injection Hstep as <- <-. simpl in Hraw, Hseen.
    exists (r :: new). rewrite Hraw, Hseen, <-!app_assoc. simpl.
    split; [done|]. split; [done|]. split; [lia|].
    constructor; [by left|done].
Qed.

(** X1.  One call of [add_cards] only appends: the records gathered before
    stay where they are, the seen keys grow by the identifiers of the new
    records, the new records come from the list handed in, and the count
    returned is their number. *)
Theorem add_cards_appends_and_counts (st st' : collector) (cards : list value)
    (n : Z) :
  add_cards st cards = Ok (st', n) →
  ∃ new : list raw,
    all_raw st' = all_raw st ++ new ∧
    seen st' = seen st ++ (card_id <$> new) ∧
    n = Z.of_nat (length new) ∧
    Forall (λ r, VDict r ∈ cards) new.
Proof.
  unfold add_cards. intros H.
  destruct (for_each_add_card_appends _ _ _ _ _ H)
    as (new & Hraw & Hseen & Hn & Hin).
  exists new. by rewrite Hn.
Qed.

Lemma add_cards_appends_and_counts_witness :
  ∃ new : list raw,
    [Sample.stage; Sample.luffy] = [Sample.stage] ++ new ∧
    [VStr "OP01-077"; VStr "OP01-001"]
      = [VStr "OP01-077"] ++ (card_id <$> new) ∧
    1 = Z.of_nat (length new) ∧
    Forall (λ r, VDict r ∈
      [VDict Sample.luffy_parallel; VDict Sample.luffy; VDict Sample.stage;
       VDict Sample.luffy_dup]) new.
Proof.
  apply (add_cards_appends_and_counts
    {| all_raw := [Sample.stage]; seen := [VStr "OP01-077"] |}
    {| all_raw := [Sample.stage; Sample.luffy];
       seen := [VStr "OP01-077"; VStr "OP01-001"] |}
    [VDict Sample.luffy_parallel; VDict Sample.luffy; VDict Sample.stage;
     VDict Sample.luffy_dup] 1).
  vm_compute. reflexivity.
Defined.

Lemma NoDup_fmap_eq {A B} (f : A → B) (l : list A) (x y : A) :
  NoDup (f <$> l) → x ∈ l → y ∈ l → f x = f y → x = y.
Proof.
  induction l as [|a l IH]; simpl; [by intros _ ?%elem_of_nil|].
  intros [Ha Hl]%NoDup_cons [->|Hx]%elem_of_cons [->|Hy]%elem_of_cons Hf.
  - done.
  - exfalso. apply Ha. rewrite Hf. by apply list_elem_of_fmap_2.
  - exfalso. apply Ha. rewrite <-Hf. by apply list_elem_of_fmap_2.
  - by apply IH.
Qed.

(** X2.  No identifier is lost: when some record of the fetch stream that
    is no variant bears a non-empty string identifier, the output holds
    exactly one record with that identifier. *)
Theorem every_identifier_collected (net : network) (out : list raw) (r : raw)
    (s : string) :
  fetch_all_cards net = Ok out →
  VDict r ∈ fetched net →
  is_variant r = Ok false → card_id r = VStr s → s ≠ EmptyString →
  ∃ r0, r0 ∈ out ∧ card_id r0 = VStr s ∧
        ∀ r1, r1 ∈ out → card_id r1 = VStr s → r1 = r0.
Proof.
  rewrite fetch_all_cards_collect.
  intros (rs & st & Hrs & Hinv & ->)%collect_inv Hr Hv Hid Hs.
  rewrite Hrs in Hr. apply list_elem_of_fmap in Hr as (r' & [= <-] & Hr).
  assert (existsb (Py.eqb (card_id r)) (seen st) = true) as Hex.
  { apply (inv_known _ _ Hinv); [done|done|]. rewrite Hid. by apply truthy_str. }
  apply existsb_exists in Hex as (k & Hk & Heqb).
  rewrite Hid in Heqb. apply eqb_str_l in Heqb as ->.
  rewrite (inv_seen _ _ Hinv) in Hk.
  apply list_elem_of_In, list_elem_of_fmap in Hk as (r0 & Hid0 & Hr0).
  exists r0. split; [done|]. split; [done|].
  intros r1 Hr1 Hid1.
  apply (NoDup_fmap_eq card_id (all_raw st)); [apply Hinv|done|done|congruence].
Qed.

Lemma every_identifier_collected_witness :
  ∃ r0, r0 ∈ [Sample.luffy] ∧ card_id r0 = VStr "OP01-001" ∧
        ∀ r1, r1 ∈ [Sample.luffy] → card_id r1 = VStr "OP01-001" → r1 = r0.
Proof.
  apply (every_identifier_collected
    (Sample.bulk_only
      [VDict Sample.luffy_parallel; VDict Sample.luffy; VDict Sample.luffy_dup])
    [Sample.luffy] Sample.luffy_dup "OP01-001").
  - vm_compute. reflexivity.
  - change (VDict Sample.luffy_dup ∈
      [VDict Sample.luffy_parallel; VDict Sample.luffy; VDict Sample.luffy_dup]).
    by do 2 right; left.
  - vm_compute. reflexivity.
  - vm_compute. reflexivity.
  - done.
Defined.

Lemma run_replay (cards : list value) (st st' : collector) :
  run st cards = Ok st' →
  run collector_init (VDict <$> all_raw st) = Ok st →
  run collector_init (VDict <$> all_raw st') = Ok st'.
Proof.
  unfold run at 1, add_cards. generalize 0.
  revert st. induction cards as [|c cards IH]; intros st n; cbn [for_each].
  - by intros [= <-].
  - intros ([st2 n2] & ([st1 n1] & Hstep & Hrest)%bind_ok & [= <-])%bind_ok Hst.
    apply (IH st1 n1); [simpl; by rewrite Hrest|].
    destruct c as [| | | | | |r]; try done.
    assert (st1 = st ∨
      all_raw st1 = all_raw st ++ [r] ∧ add_card (st, 0) (VDict r) = Ok (st1, 1))
      as [->|[Hraw Hadd]]; [|done|].
    { simpl in *. destruct (is_variant r) as [[|]|e]; simpl in *;
        [left; congruence| |done].
      destruct (Py.truthy (card_id r)); [|left; congruence].
      destruct (Py.set_mem (card_id r) (seen st)) as [[|]|e]; simpl in *;
        [left; congruence| |done].
      right. injection Hstep as <- _. done. }
    rewrite Hraw, fmap_app, run_app, Hst. simpl.
    unfold run, add_cards. cbn [for_each]. by rewrite Hadd.
Qed.

(** X3.  The Collector is idempotent: run over its own output, it returns
    that output unchanged. *)
Theorem collect_idempotent (cards : list value) (out : list raw) :
  collect cards = Ok out → collect (VDict <$> out) = Ok out.
Proof.
  rewrite !collect_run. intros (st & Hrun & [= <-])%bind_ok.
  by rewrite (run_replay _ _ _ Hrun).
Qed.

Lemma collect_idempotent_witness :
  collect (VDict <$> [Sample.luffy; Sample.stage])
    = Ok [Sample.luffy; Sample.stage].
Proof.
  apply (collect_idempotent
    [VDict Sample.luffy_parallel; VDict Sample.luffy; VDict Sample.anonymous;
     VDict Sample.stage; VDict Sample.luffy_dup]).
  vm_compute. reflexivity.
Defined.

(** ** The Collector, request by request *)

Lemma fetched_each_imap (net : network) (path : string) (ids : list string)
    (n : nat) :
  fetched_each net path ids n =
  concat (imap (λ i sid,
    fetch_json (net (n + i)%nat (API_BASE +:+ path +:+ sid +:+ "/"))) ids).
Proof.
  revert n. induction ids as [|sid ids IH]; intros n; simpl; [done|].
  rewrite Nat.add_0_r, IH. do 2 f_equal.
  apply imap_ext. intros i sid' _. simpl. by rewrite Nat.add_succ_r.
Qed.

(** X4.  When no request yields a card (no connection, a status other than
    200, a body that is no JSON list, an empty list), the Collector returns
    the empty list without raising, and the run ends with status 1 and
    writes nothing, whatever the sort. *)
Theorem nothing_fetched_exits_early (py_sorted : sorter) (net : network) :
  (∀ n url, fetch_json (net n url) = []) →
  fetch_all_cards net = Ok [] ∧
  main py_sorted net = {| exit_status := 1; written := None |}.
Proof.
  intros Hnet.
  assert (fetch_all_cards net = Ok []) as Hfetch.
  { assert (∀ path ids n, fetched_each net path ids n = []) as Heach.
    { intros path ids. induction ids as [|sid ids IH]; intros n; simpl; [done|].
      by rewrite Hnet, IH. }
    assert (∀ bulk path ids n, (fetched_group net bulk path ids n).1 = [])
      as Hgroup.
    { intros bulk path ids n. unfold fetched_group. rewrite Hnet. apply Heach. }
    rewrite fetch_all_cards_collect. unfold fetched.
    pose proof (Hgroup "/allSetCards/" "/sets/" SET_IDS 0%nat) as H1.
    destruct (fetched_group net "/allSetCards/" _ _ _) as [sets n1].
    pose proof (Hgroup "/allSTCards/" "/decks/" ST_IDS n1) as H2.
    destruct (fetched_group net "/allSTCards/" _ _ _) as [decks n2].
    simpl in H1, H2. by rewrite H1, H2, Hnet. }
  split; [done|]. unfold main. by rewrite Hfetch.
Qed.

Lemma nothing_fetched_exits_early_witness :
  fetch_all_cards Scenario.outage = Ok [] ∧
  main Insertion.sorted Scenario.outage
    = {| exit_status := 1; written := None |}.
Proof.
  apply (nothing_fetched_exits_early Insertion.sorted Scenario.outage).
  intros [|[|[|[|n]]]] url; reflexivity.
Defined.

(** X5.  When both bulk endpoints answer with cards, the run makes three
    requests and no per-set or per-deck request: the output is the
    Collector run over the bulk sets, the bulk decks and the promo reply,
    in this order. *)
Theorem bulk_replies_suffice (net : network) :
  fetch_json (net 0%nat (API_BASE +:+ "/allSetCards/")) ≠ [] →
  fetch_json (net 1%nat (API_BASE +:+ "/allSTCards/")) ≠ [] →
  fetch_all_cards net =
  collect (fetch_json (net 0%nat (API_BASE +:+ "/allSetCards/"))
           ++ fetch_json (net 1%nat (API_BASE +:+ "/allSTCards/"))
           ++ fetch_json (net 2%nat (API_BASE +:+ "/sets/PRB-01/"))).
Proof.
  intros Hsets Hdecks. rewrite fetch_all_cards_collect.
  unfold fetched, fetched_group.
  destruct (fetch_json (net 0%nat _)) as [|c sets]; [done|]. cbn [Py.truthy].
  destruct (fetch_json (net 1%nat _)) as [|c' decks]; [done|]. done.
Qed.

Lemma bulk_replies_suffice_witness :
  fetch_all_cards Scenario.bulk_both =
  collect ([VDict Sample.luffy; VDict Sample.luffy_dup]
           ++ [VDict Sample.stage]
           ++ [VDict Sample.nameless; VDict Sample.luffy]).
Proof.
  apply (bulk_replies_suffice Scenario.bulk_both); discriminate.
Defined.

(** X6.  When neither bulk endpoint yields a card, the run makes 41
    requests: after the bulk set request the 17 sets of [SET_IDS] in order,
    then the bulk deck request, the 21 decks of [ST_IDS] in order, and the
    promo set; the output is the Collector run over the replies to the
    per-set, per-deck and promo requests, in this order. *)
Theorem fallback_requests (net : network) :
  fetch_json (net 0%nat (API_BASE +:+ "/allSetCards/")) = [] →
  fetch_json (net 18%nat (API_BASE +:+ "/allSTCards/")) = [] →
  fetch_all_cards net =
  collect
    (concat (imap (λ i sid,
       fetch_json (net (1 + i)%nat (API_BASE +:+ "/sets/" +:+ sid +:+ "/")))
       SET_IDS)
     ++ concat (imap (λ i sid,
       fetch_json (net (19 + i)%nat (API_BASE +:+ "/decks/" +:+ sid +:+ "/")))
       ST_IDS)
     ++ fetch_json (net 40%nat (API_BASE +:+ "/sets/PRB-01/"))).
Proof.
  intros Hsets Hdecks. rewrite fetch_all_cards_collect.
  unfold fetched, fetched_group. rewrite Hsets. cbn [Py.truthy].
  change (1 + length SET_IDS)%nat with 18%nat. rewrite Hdecks. cbn [Py.truthy].
  change (19 + length ST_IDS)%nat with 40%nat.
  by rewrite !fetched_each_imap.
Qed.

Lemma fallback_requests_witness :
  fetch_all_cards Scenario.per_set =
  collect
    (concat (imap (λ i sid,
       fetch_json (Scenario.per_set (1 + i)%nat
         (API_BASE +:+ "/sets/" +:+ sid +:+ "/"))) SET_IDS)
     ++ concat (imap (λ i sid,
       fetch_json (Scenario.per_set (19 + i)%nat
         (API_BASE +:+ "/decks/" +:+ sid +:+ "/"))) ST_IDS)
     ++ fetch_json (Scenario.per_set 40%nat (API_BASE +:+ "/sets/PRB-01/"))).
Proof.
  apply (fallback_requests Scenario.per_set); reflexivity.
Defined.

(** ** The Transformer, entry by entry *)

Lemma dict_set_elem {V} (d : list (string * V)) (k k' : string) (v v' : V) :
  NoDup d.*1 →
  (k', v') ∈ dict_set d k v ↔ (k' = k ∧ v' = v) ∨ (k' ≠ k ∧ (k', v') ∈ d).
Proof.
  induction d as [|[k0 v0] d IH]; simpl.
  - intros _. rewrite list_elem_of_singleton, elem_of_nil.
    split; [intros [= -> ->]; by left | intros [[-> ->]|[_ []]]; done].
  - intros [Hk0 Hd]%NoDup_cons. destruct (String.eqb_spec k0 k) as [->|Hne].
    + rewrite !elem_of_cons. split.
      * intros [[= -> ->]|H]; [by left|]. right. split; [|by right].
        intros ->. apply Hk0. by apply (list_elem_of_fmap_2 fst) in H.
      * intros [[-> ->]|[Hne [[= -> ->]|H]]]; [by left|done|by right].
    + rewrite !elem_of_cons, (IH Hd). split.
      * intros [[= -> ->]|[[-> ->]|[Hk H]]]; [right|by left|right].
        -- split; [done|by left].
        -- split; [done|by right].
      * intros [[-> ->]|[Hk [[= -> ->]|H]]]; [right; by left|by left|].
        right; right. done.
Qed.

Lemma dict_set_fresh {V} (d : list (string * V)) (k : string) (v : V) :
  k ∉ d.*1 → dict_set d k v = d ++ [(k, v)].
Proof.
  induction d as [|[k0 v0] d IH]; simpl; [done|].
  intros [Hne Hk]%not_elem_of_cons.
  destruct (String.eqb_spec k0 k) as [->|_]; [done|]. by rewrite IH.
Qed.

(** Where the entries of the mapping come from: an entry of the mapping at
    the start that no record overwrote, or the card of the last record
    stored under the key. *)
Lemma convert_entries (raws : list raw) (acc d : list (string * card))
    (k : string) (c : card) :
  for_each convert_step acc raws = Ok d → NoDup acc.*1 →
  (k, c) ∈ d ↔
    ((k, c) ∈ acc ∧
     ∀ r' c', r' ∈ raws → convert_record r' ≠ Ok (Some (k, c'))) ∨
    ∃ l1 r l2, raws = l1 ++ r :: l2 ∧ convert_record r = Ok (Some (k, c)) ∧
      ∀ r' c', r' ∈ l2 → convert_record r' ≠ Ok (Some (k, c')).
Proof.
  revert acc. induction raws as [|raw raws IH]; intros acc; cbn [for_each].
  - intros [= <-] _. split.
    + intros H. left. split; [done|]. by intros r' c' ?%elem_of_nil.
    + intros [[H _]|(l1 & r & l2 & H & _)]; [done|]. by destruct l1.
  - intros (acc' & Hstep & Hrest)%bind_ok Hnd. unfold convert_step in Hstep.
    apply bind_ok in Hstep as (entry & Hrec & Hentry).
    destruct entry as [[k0 c0]|]; injection Hentry as <-.
    + rewrite (IH _ Hrest (dict_set_NoDup _ _ _ Hnd)), (dict_set_elem _ _ _ _ _ Hnd).
      split.
      * intros [[[[-> ->]|[Hk Hin]] Hlater]|(l1 & r & l2 & -> & Hr & Hlater)].
        -- right. by exists [], raw, raws.
        -- left. split; [done|]. intros r' c' [->|Hr']%elem_of_cons; [|by eauto].
           rewrite Hrec. by intros [= -> _].
        -- right. by exists (raw :: l1), r, l2.
      * intros [[Hin Hlater]|(l1 & r & l2 & Heq & Hr & Hlater)].
        -- left. split.
           ++ right. split; [|done]. intros ->.
              apply (Hlater raw c0); [by left|done].
           ++ intros r' c' Hr'. apply Hlater. by right.
        -- destruct l1 as [|r1 l1]; injection Heq as <- ->.
           ++ rewrite Hrec in Hr. injection Hr as <- <-. left. split; [by left|done].
           ++ right. by exists l1, r, l2.
    + rewrite (IH _ Hrest Hnd). split.
      * intros [[Hin Hlater]|(l1 & r & l2 & -> & Hr & Hlater)].
        -- left. split; [done|]. intros r' c' [->|Hr']%elem_of_cons; [|by eauto].
           by rewrite Hrec.
        -- right. by exists (raw :: l1), r, l2.
      * intros [[Hin Hlater]|(l1 & r & l2 & Heq & Hr & Hlater)].
        -- left. split; [done|]. intros r' c' Hr'. apply Hlater. by right.
        -- destruct l1 as [|r1 l1]; injection Heq as <- ->.
           ++ by rewrite Hrec in Hr.
           ++ right. by exists l1, r, l2.
Qed.

Lemma convert_record_card_id (raw : raw) (k : string) (c : card) :
  convert_record raw = Ok (Some (k, c)) → card_id raw = VStr k.
Proof.
  intros [H _]%convert_record_key. unfold card_id, Py.get. by rewrite H.
Qed.

(** X7.  On a key collision the last write wins: the mapping holds [(k, c)]
    exactly when [c] is the card of the last record of the input that bears
    the identifier [k]. *)
Theorem convert_last_wins (raw_cards : list raw) (card_list : list (string * card))
    (k : string) (c : card) :
  convert_to_tcg_arena raw_cards = Ok card_list →
  (k, c) ∈ card_list ↔
    ∃ l1 r l2, raw_cards = l1 ++ r :: l2 ∧
      convert_record r = Ok (Some (k, c)) ∧
      ∀ r', r' ∈ l2 → card_id r' ≠ VStr k.
Proof.
  intros Hrun. unfold convert_to_tcg_arena in Hrun.
  rewrite (convert_entries _ _ _ k c Hrun) by constructor.
  assert (∀ l2 : list raw, l2 `sublist_of` raw_cards → k ≠ EmptyString →
    (∀ r' c', r' ∈ l2 → convert_record r' ≠ Ok (Some (k, c'))) ↔
    (∀ r', r' ∈ l2 → card_id r' ≠ VStr k)) as Hlater.
  { intros l2 Hsub Hk. split.
    - intros H r' Hr' Hid.
      assert (∃ entry, convert_record r' = Ok entry) as [[[k' c']|] Hentry].
      { assert (r' ∈ raw_cards) as Hin by (by eapply elem_of_sublist).
        apply list_elem_of_split in Hin as (l1 & l3 & ->).
        rewrite for_each_app in Hrun. apply bind_ok in Hrun as (a & _ & Hrun).
        cbn [for_each] in Hrun. apply bind_ok in Hrun as (a' & Hstep & _).
        unfold convert_step in Hstep.
        apply bind_ok in Hstep as (entry & Hentry & _). by exists entry. }
      + pose proof (convert_record_card_id _ _ _ Hentry) as Hid'.
        rewrite Hid in Hid'. injection Hid' as <-. by apply (H r' c').
      + apply convert_record_None in Hentry. rewrite Hid in Hentry.
        apply truthy_str in Hk. congruence.
    - intros H r' c' Hr' Hc'%convert_record_card_id. by apply (H r'). }
  split.
  - intros [[[]%elem_of_nil _]|(l1 & r & l2 & -> & Hr & Hl2)].
    exists l1, r, l2. split; [done|]. split; [done|].
    apply Hlater; [|by apply convert_record_key in Hr as [_ ?]|done].
    apply sublist_inserts_l. by apply sublist_cons.
  - intros (l1 & r & l2 & -> & Hr & Hl2). right.
    exists l1, r, l2. split; [done|]. split; [done|].
    apply Hlater; [|by apply convert_record_key in Hr as [_ ?]|done].
    apply sublist_inserts_l. by apply sublist_cons.
Qed.

Lemma convert_last_wins_witness :
  ∃ c, convert_record Sample.luffy_dup = Ok (Some ("OP01-001"%string, c)) ∧
       convert_to_tcg_arena [Sample.luffy; Sample.stage; Sample.luffy_dup]
         = Ok [("OP01-001"%string, c);
               ("OP01-077"%string,
                match convert_record Sample.stage with
                | Ok (Some kc) => kc.2
                | _ => c
                end)] ∧
       ("OP01-001"%string, c) ∈
         [("OP01-001"%string, c);
          ("OP01-077"%string,
           match convert_record Sample.stage with
           | Ok (Some kc) => kc.2
           | _ => c
           end)].
Proof.
  eexists. split; [vm_compute; reflexivity|].
  split; [vm_compute; reflexivity|].
  apply (convert_last_wins [Sample.luffy; Sample.stage; Sample.luffy_dup]).
  - vm_compute. reflexivity.
  - exists [Sample.luffy; Sample.stage], Sample.luffy_dup, [].
    split; [done|]. split; [vm_compute; reflexivity|].
    by intros r' ?%elem_of_nil.
Defined.

Lemma convert_distinct (raws : list raw) (acc d : list (string * card)) :
  for_each convert_step acc raws = Ok d →
  NoDup (card_id <$> raws) →
  Forall (λ r, Py.truthy (card_id r) = true) raws →
  (∀ r k, r ∈ raws → card_id r = VStr k → k ∉ acc.*1) →
  ∃ d', d = acc ++ d' ∧
        Forall2 (λ r kc, convert_record r = Ok (Some kc)) raws d'.
Proof.
  revert acc. induction raws as [|raw raws IH]; intros acc; cbn [for_each].
  - intros [= <-] _ _ _. exists []. by rewrite app_nil_r.
  - intros (acc' & Hstep & Hrest)%bind_ok [Hraw Hnd]%NoDup_cons
      [Ht Hall]%Forall_cons Hfresh.
    unfold convert_step in Hstep.
    apply bind_ok in Hstep as (entry & Hrec & Hentry).
    destruct entry as [[k0 c0]|].
    2:{ apply convert_record_None in Hrec. congruence. }
    injection Hentry as <-.
    pose proof (convert_record_card_id _ _ _ Hrec) as Hid.
    rewrite dict_set_fresh in Hrest by (apply (Hfresh raw); [by left|done]).
    destruct (IH _ Hrest Hnd Hall) as (d' & -> & Hd').
    { intros r k Hr Hk. rewrite fmap_app, elem_of_app. simpl.
      rewrite list_elem_of_singleton. intros [Hin| ->].
      - by apply (Hfresh r k); [right|done|].
      - apply Hraw. rewrite Hid, <-Hk. by apply list_elem_of_fmap_2. }
    exists ((k0, c0) :: d'). rewrite <-app_assoc. split; [done|].
    by constructor.
Qed.

(** X8.  Collection and transformation fit together one to one: when the
    records the Collector returns are transformed, the mapping has one
    entry per record, in the order of the records, and each entry is the
    card of its record under the record's identifier. *)
Theorem one_entry_per_collected_record (net : network) (out : list raw)
    (card_list : list (string * card)) :
  fetch_all_cards net = Ok out →
  convert_to_tcg_arena out = Ok card_list →
  Forall2 (λ r kc, convert_record r = Ok (Some kc) ∧ card_id r = VStr kc.1)
    out card_list ∧
  length card_list = length out.
Proof.
  rewrite fetch_all_cards_collect.
  intros (rs & st & Hrs & Hinv & ->)%collect_inv Hconv.
  destruct (convert_distinct _ _ _ Hconv) as (d' & -> & Hd').
  - apply Hinv.
  - apply Forall_forall. intros r Hr. by apply (inv_kept _ _ Hinv).
  - intros r k _ _ []%elem_of_nil.
  - simpl. split; [|symmetry; by eapply Forall2_length].
    eapply Forall2_impl; [exact Hd'|]. intros r [k c] Hr. split; [done|].
    by apply convert_record_card_id in Hr.
Qed.

Lemma one_entry_per_collected_record_witness :
  ∃ c1 c2,
    Forall2 (λ r kc, convert_record r = Ok (Some kc) ∧ card_id r = VStr kc.1)
      [Sample.luffy; Sample.stage]
      [("OP01-001"%string, c1); ("OP01-077"%string, c2)] ∧
    length [("OP01-001"%string, c1); ("OP01-077"%string, c2)]
      = length [Sample.luffy; Sample.stage].
Proof.
  eexists _, _.
  apply (one_entry_per_collected_record
    (Sample.bulk_only
      [VDict Sample.luffy; VDict Sample.anonymous; VDict Sample.stage;
       VDict Sample.luffy_dup])).
  - vm_compute. reflexivity.
  - vm_compute. reflexivity.
Defined.

(** X9.  Every entry of the mapping carries its key as embedded [id], a
    non-empty string, and its [face.front] sub-object repeats the name, the
    category, the cost and the layout flag of the top level. *)
Theorem entries_consistent (raw_cards : list raw)
    (card_list : list (string * card)) (k : string) (c : card) :
  convert_to_tcg_arena raw_cards = Ok card_list →
  (k, c) ∈ card_list →
  id c = VStr k ∧ k ≠ EmptyString ∧
  front_name (face c) = name c ∧ front_type (face c) = type_ c ∧
  front_cost (face c) = cost c ∧
  front_isHorizontal (face c) = isHorizontal c ∧
  ∃ r, r ∈ raw_cards ∧ r !! "card_set_id" = Some (VStr k) ∧
       front_image (face c) = Py.get r "card_image" (VStr "").
Proof.
  intros Hrun Hin. unfold convert_to_tcg_arena in Hrun.
  apply (convert_entries _ _ _ k c Hrun) in Hin; [|constructor].
  destruct Hin as [[[]%elem_of_nil _]|(l1 & r & l2 & -> & Hr & _)].
  destruct (convert_record_key _ _ _ Hr) as [Hkey Hne].
  pose proof (convert_record_card_id _ _ _ Hr) as Hid.
  apply convert_record_Some in Hr
    as (_ & _ & _ & _ & _ & _ & _ & _ & Hidc & _ & _ & _ & _ & Hface).
  rewrite Hface. simpl. split; [congruence|]. do 5 (split; [done|]).
  exists r. split; [|done]. apply elem_of_app. right. by left.
Qed.

Lemma entries_consistent_witness :
  ∃ c,
    convert_to_tcg_arena [Sample.anonymous; Sample.stage]
      = Ok [("OP01-077"%string, c)] ∧
    id c = VStr "OP01-077" ∧ ("OP01-077"%string) ≠ EmptyString ∧
    front_name (face c) = name c ∧ front_type (face c) = type_ c ∧
    front_cost (face c) = cost c ∧
    front_isHorizontal (face c) = isHorizontal c ∧
    ∃ r, r ∈ [Sample.anonymous; Sample.stage] ∧
         r !! "card_set_id" = Some (VStr "OP01-077") ∧
         front_image (face c) = Py.get r "card_image" (VStr "").
Proof.
  eexists. split; [vm_compute; reflexivity|].
  eapply (entries_consistent [Sample.anonymous; Sample.stage]).
  - vm_compute. reflexivity.
  - by left.
Defined.

(** ** Text and number *)

Lemma string_app_nil_r (s : string) : s +:+ "" = s.
Proof.
  induction s as [|a s IH]; [done|].
  change (String a (s +:+ "") = String a s). by rewrite IH.
Qed.

Lemma rev_app_rev_app (s1 s2 s3 : string) :
  String.rev_app (String.rev_app s1 s2) s3 = String.rev_app s2 (s1 +:+ s3).
Proof.
  revert s2 s3. induction s1 as [|a s1 IH]; intros s2 s3; simpl; [done|].
  by rewrite IH.
Qed.

Lemma rev_app_chars (s1 s2 : string) (c : ascii) :
  In c (list_ascii_of_string (String.rev_app s1 s2)) ↔
  In c (list_ascii_of_string s1) ∨ In c (list_ascii_of_string s2).
Proof.
  revert s2. induction s1 as [|a s1 IH]; intros s2; simpl; [tauto|].
  rewrite IH. simpl. tauto.
Qed.

Lemma lstrip_spaceless (s : string) :
  (∀ c, In c (list_ascii_of_string s) → Py.is_space c = false) →
  Py.lstrip s = s.
Proof.
  destruct s as [|a s]; [done|]. intros H. simpl.
  by rewrite (H a) by (by left).
Qed.

(** [strip] leaves a text without whitespace as it is. *)
Lemma strip_spaceless (s : string) :
  (∀ c, In c (list_ascii_of_string s) → Py.is_space c = false) →
  Py.strip s = s.
Proof.
  intros H. unfold Py.strip. rewrite (lstrip_spaceless s H).
  rewrite lstrip_spaceless.
  - unfold String.rev. rewrite rev_app_rev_app. simpl. apply string_app_nil_r.
  - intros c Hc. apply rev_app_chars in Hc as [Hc|[]]. by apply H.
Qed.

Lemma uint_chars (d : Decimal.uint) (c : ascii) :
  In c (list_ascii_of_string (NilEmpty.string_of_uint d)) →
  Py.is_space c = false ∧ c ≠ "-"%char ∧ c ≠ "+"%char.
Proof.
  induction d as [|d IH|d IH|d IH|d IH|d IH|d IH|d IH|d IH|d IH|d IH]; simpl;
    [done|..]; (intros [<-|Hc]; [done | by apply IH]).
Qed.

(** Reading digits one by one is the positional value of the numeral. *)
Lemma digits_of_uint_acc (d : Decimal.uint) (acc : positive) :
  Py.digits (Z.pos acc) true (NilEmpty.string_of_uint d)
  = Some (Z.pos (Pos.of_uint_acc d acc)).
Proof.
  revert acc.
  induction d as [|d IH|d IH|d IH|d IH|d IH|d IH|d IH|d IH|d IH|d IH];
    intros acc; [done|..]; cbn [NilEmpty.string_of_uint Py.digits];
    (match goal with |- context [Py.digit ?a] =>
       let v := eval vm_compute in (Py.digit a) in
       change (Py.digit a) with v end);
    cbn [Pos.of_uint_acc]; rewrite <-IH; f_equal; lia.
Qed.

Lemma digits_of_uint (d : Decimal.uint) (b : bool) :
  b = true ∨ d ≠ Decimal.Nil →
  Py.digits 0 b (NilEmpty.string_of_uint d) = Some (Z.of_N (Pos.of_uint d)).
Proof.
  revert b.
  induction d as [|d IH|d IH|d IH|d IH|d IH|d IH|d IH|d IH|d IH|d IH];
    intros b Hb; [by destruct Hb as [->|]|..];
    cbn [NilEmpty.string_of_uint Py.digits];
    (match goal with |- context [Py.digit ?a] =>
       let v := eval vm_compute in (Py.digit a) in
       change (Py.digit a) with v end);
    cbn [Pos.of_uint]; [by apply IH; left|..];
    (match goal with |- Py.digits ?z _ _ = _ =>
       match eval vm_compute in z with
       | Z.pos ?p => change z with (Z.pos p)
       end end);
    by rewrite digits_of_uint_acc.
Qed.

Lemma int_of_str_uint (p : positive) :
  Py.digits 0 false (NilEmpty.string_of_uint (Pos.to_uint p)) = Some (Z.pos p).
Proof.
  rewrite digits_of_uint by (right; apply DecimalPos.Unsigned.to_uint_nonnil).
  by rewrite DecimalPos.Unsigned.of_to.
Qed.

Lemma str_pos (p : positive) :
  NilZero.string_of_uint (Pos.to_uint p)
  = NilEmpty.string_of_uint (Pos.to_uint p).
Proof.
  pose proof (DecimalPos.Unsigned.to_uint_nonnil p).
  by destruct (Pos.to_uint p).
Qed.

(** A text of ASCII characters is parsed as it stands. *)
Lemma code_points_ascii (s : string) :
  (∀ c, In c (list_ascii_of_string s) → (N_of_ascii c <? 128)%N = true) →
  forallb (λ c, c <? 128)%N (Py.code_points s) = true.
Proof.
  induction s as [|a s IH]; [done|]. intros H.
  assert ((N_of_ascii a <? 128)%N = true) as Ha by (apply H; by left).
  cbn [Py.code_points]. cbv zeta. rewrite Ha. cbn [forallb]. rewrite Ha.
  apply IH. intros c Hc. apply H. by right.
Qed.

Lemma ascii_form_ascii (s : string) :
  (∀ c, In c (list_ascii_of_string s) → (N_of_ascii c <? 128)%N = true) →
  Py.ascii_form s = s.
Proof. intros H. unfold Py.ascii_form. by rewrite code_points_ascii. Qed.

Lemma uint_ascii (d : Decimal.uint) (c : ascii) :
  In c (list_ascii_of_string (NilEmpty.string_of_uint d)) →
  (N_of_ascii c <? 128)%N = true.
Proof.
  induction d as [|d IH|d IH|d IH|d IH|d IH|d IH|d IH|d IH|d IH|d IH]; simpl;
    [done|..]; (intros [<-|Hc]; [done | by apply IH]).
Qed.

Lemma count_digits_uint (d : Decimal.uint) :
  Py.count_digits (NilEmpty.string_of_uint d)
  = N.of_nat (String.length (NilEmpty.string_of_uint d)).
Proof.
  induction d as [|d IH|d IH|d IH|d IH|d IH|d IH|d IH|d IH|d IH|d IH];
    [done|..];
    cbn [NilEmpty.string_of_uint Py.count_digits String.length];
    (match goal with |- context [Py.digit ?a] =>
       let v := eval vm_compute in (Py.digit a) in
       change (Py.digit a) with v end);
    rewrite IH; lia.
Qed.

(** [int(str(n)) == n], wherever [str] gives a text. *)
Lemma int_str (n : Z) (s : string) :
  Py.str n = Ok s → Py.int (VStr s) = Ok n.
Proof.
  unfold Py.str. destruct (_ <? _)%N eqn:L; [done|]. intros [= <-].
  cbn [Py.int]. unfold Py.int_of_str.
  destruct n as [|p|p]; [done|..].
  - change (Py.decimal (Z.abs (Z.pos p)))
      with (NilZero.string_of_uint (Pos.to_uint p)) in L.
    change (Py.decimal (Z.pos p))
      with (NilZero.string_of_uint (Pos.to_uint p)).
    rewrite str_pos in *.
    rewrite ascii_form_ascii by apply uint_ascii.
    rewrite strip_spaceless by (intros c Hc; by apply uint_chars in Hc as [? _]).
    rewrite count_digits_uint, L.
    pose proof (int_of_str_uint p) as Hp. unfold Py.parse.
    destruct (NilEmpty.string_of_uint (Pos.to_uint p)) as [|a t] eqn:E; [done|].
    assert (a ≠ "-"%char ∧ a ≠ "+"%char) as [Hm Hpl].
    { apply (uint_chars (Pos.to_uint p)). rewrite E. by left. }
    destruct a as [[] [] [] [] [] [] [] []]; try done; by rewrite Hp.
  - change (Py.decimal (Z.abs (Z.neg p)))
      with (NilZero.string_of_uint (Pos.to_uint p)) in L.
    change (Py.decimal (Z.neg p))
      with (String "-" (NilZero.string_of_uint (Pos.to_uint p))).
    rewrite str_pos in *.
    rewrite ascii_form_ascii
      by (intros c [<-|Hc]; [done | by apply uint_ascii in Hc]).
    rewrite strip_spaceless
      by (intros c [<-|Hc]; [done | by apply uint_chars in Hc as [? _]]).
    cbn [Py.count_digits]. change (Py.digit "-") with (@None Z).
    rewrite N.add_0_l, count_digits_uint, L.
    unfold Py.parse. by rewrite int_of_str_uint.
Qed.

Lemma text_of_read_back (n : Z) (s : string) :
  Py.str n = Ok s → text_of n = s ∧ Py.int (VStr (text_of n)) = Ok n.
Proof.
  intros H. unfold text_of. rewrite H. split; [done|]. by apply int_str.
Qed.

(** X10.  The text fields read back as numbers: in every entry of the
    mapping, [Cost] is the text of [cost], and [Power], [Counter] and
    [Life] are the texts of the integers their raw fields coerce to: the
    decimal text [str] gives, from which [int] gives the integer again,
    and ["0"] for an integer of more digits than [str] prints. *)
Theorem text_fields_read_back (raw_cards : list raw)
    (card_list : list (string * card)) (k : string) (c : card) :
  convert_to_tcg_arena raw_cards = Ok card_list →
  (k, c) ∈ card_list →
  ∃ (r : raw) (power counter life : Z),
    r ∈ raw_cards ∧ card_id r = VStr k ∧
    coerce_int (Py.get_none r "card_cost") = Ok (cost c) ∧
    coerce_int (Py.get_none r "card_power") = Ok power ∧
    coerce_int (Py.get_none r "counter_amount") = Ok counter ∧
    coerce_int (Py.get_none r "life") = Ok life ∧
    ∀ (n : Z) (field : string),
      (n, field) ∈ [(cost c, Cost c); (power, Power c);
                    (counter, Counter c); (life, Life c)] →
      (∀ s, Py.str n = Ok s → field = s ∧ Py.int (VStr field) = Ok n) ∧
      (Py.str n = Raise ValueError → field = "0"%string).
Proof.
  intros Hrun Hin. unfold convert_to_tcg_arena in Hrun.
  apply (convert_entries _ _ _ k c Hrun) in Hin; [|constructor].
  destruct Hin as [[[]%elem_of_nil _]|(l1 & r & l2 & -> & Hr & _)].
  pose proof (convert_record_card_id _ _ _ Hr) as Hid.
  apply convert_record_Some in Hr
    as (_ & _ & _ & Hcost & Hcost' & Hpower & Hcounter & Hlife & _).
  pose proof (coerce_str_int _ _ Hcost) as Hstr.
  assert (Cost c = text_of (cost c)) as HCost by congruence.
  apply coerce_str_decimal in Hpower as (power & Hpower & HP).
  apply coerce_str_decimal in Hcounter as (counter & Hcounter & HC).
  apply coerce_str_decimal in Hlife as (life & Hlife & HL).
  exists r, power, counter, life.
  split; [apply elem_of_app; right; by left|]. do 5 (split; [done|]).
  assert (∀ n field, field = text_of n →
    (∀ s, Py.str n = Ok s → field = s ∧ Py.int (VStr field) = Ok n) ∧
    (Py.str n = Raise ValueError → field = "0"%string)) as Htext.
  { intros n field ->. split.
    - intros s Hs. by apply text_of_read_back.
    - intros Hn. unfold text_of. by rewrite Hn. }
  intros n field Hfield. apply Htext.
  repeat (apply elem_of_cons in Hfield as [[= -> ->]|Hfield]; [done|]).
  by apply elem_of_nil in Hfield.
Qed.

Lemma text_fields_read_back_witness :
  ∃ c,
    convert_to_tcg_arena [Sample.wide] = Ok [("OP01-005"%string, c)] ∧
    ∃ (r : raw) (power counter life : Z),
      r ∈ [Sample.wide] ∧ card_id r = VStr "OP01-005" ∧
      coerce_int (Py.get_none r "card_cost") = Ok (cost c) ∧
      coerce_int (Py.get_none r "card_power") = Ok power ∧
      coerce_int (Py.get_none r "counter_amount") = Ok counter ∧
      coerce_int (Py.get_none r "life") = Ok life ∧
      ∀ (n : Z) (field : string),
        (n, field) ∈ [(cost c, Cost c); (power, Power c);
                      (counter, Counter c); (life, Life c)] →
        (∀ s, Py.str n = Ok s → field = s ∧ Py.int (VStr field) = Ok n) ∧
        (Py.str n = Raise ValueError → field = "0"%string).
Proof.
  eexists. split; [vm_compute; reflexivity|].
  eapply (text_fields_read_back [Sample.wide]).
  - vm_compute. reflexivity.
  - by left.
Defined.

(** ** When the Transformer raises *)

Lemma coerce_cases (x : value) :
  (is_infinite x = true ∧ coerce_str x = Raise OverflowError ∧
   coerce_int x = Raise OverflowError) ∨
  (is_infinite x = false ∧ ∃ n, coerce_str x = Ok (text_of n) ∧
   coerce_int x = Ok n).
Proof.
  destruct (is_infinite x) eqn:E.
  - left. by destruct x as [| | |[]| | |].
  - right. split; [done|]. eexists. split; [|by apply coerce_int_spec].
    by apply coerce_str_int, coerce_int_spec.
Qed.

Lemma finite_numbers_dec (raw : raw) :
  finite_numbers raw ∨
  ∃ k, k ∈ numeric_keys ∧ is_infinite (Py.get_none raw k) = true.
Proof.
  destruct (existsb (λ k, is_infinite (Py.get_none raw k)) numeric_keys) eqn:E.
  - right. apply existsb_exists in E as (k & Hk & Hinf). exists k.
    split; [by apply list_elem_of_In|done].
  - left. intros k Hk. destruct (is_infinite (Py.get_none raw k)) eqn:Ek; [|done].
    apply not_true_iff_false in E. exfalso. apply E, existsb_exists.
    exists k. split; [by apply list_elem_of_In|done].
Qed.

Lemma convert_record_overflow (raw : raw) (s : string) :
  card_id raw = VStr s → s ≠ EmptyString → ¬ finite_numbers raw →
  convert_record raw = Raise OverflowError.
Proof.
  intros Hid Hs Hinf. unfold convert_record. fold (card_id raw).
  rewrite Hid, (proj2 (truthy_str s) Hs). cbn [negb].
  rewrite set_code_of_str. cbn [bind].
  destruct (coerce_cases (Py.get_none raw "card_cost"))
    as [(_ & -> & _)|(H1 & n1 & -> & ->)]; [done|]. cbn [bind].
  destruct (coerce_cases (Py.get_none raw "card_power"))
    as [(_ & -> & _)|(H2 & n2 & -> & _)]; [done|]. cbn [bind].
  destruct (coerce_cases (Py.get_none raw "counter_amount"))
    as [(_ & -> & _)|(H3 & n3 & -> & _)]; [done|]. cbn [bind].
  destruct (coerce_cases (Py.get_none raw "life"))
    as [(_ & -> & _)|(H4 & n4 & -> & _)]; [done|].
  exfalso. apply Hinf. intros k Hk. unfold numeric_keys in Hk.
  repeat (apply elem_of_cons in Hk as [->|Hk]; [done|]).
  by apply elem_of_nil in Hk.
Qed.

Lemma convert_record_untyped (raw : raw) :
  Py.truthy (card_id raw) = true → ¬ is_str (card_id raw) →
  ∃ e, convert_record raw = Raise e.
Proof.
  intros Ht Hstr. unfold convert_record. fold (card_id raw).
  rewrite Ht. cbn [negb].
  destruct (set_code_of (card_id raw)) as [code|e] eqn:Hcode; [|by eexists].
  cbn [bind].
  destruct (coerce_str (Py.get_none raw "card_cost")); [|by eexists].
  destruct (coerce_str (Py.get_none raw "card_power")); [|by eexists].
  destruct (coerce_str (Py.get_none raw "counter_amount")); [|by eexists].
  destruct (coerce_str (Py.get_none raw "life")); [|by eexists].
  destruct (coerce_int (Py.get_none raw "card_cost")); [|by eexists].
  cbn [bind].
  destruct (card_id raw) as [| | | |s| |]; try (by eexists).
  exfalso. apply Hstr. by eexists.
Qed.

(** Records the Transformer can take: no identifier to speak of, or a
    string identifier and finite numbers. *)
Lemma convert_record_ok (raw : raw) :
  (∃ entry, convert_record raw = Ok entry) ↔
  Py.truthy (card_id raw) = false ∨
  (is_str (card_id raw) ∧ finite_numbers raw).
Proof.
  split.
  - intros [entry Hentry].
    destruct (Py.truthy (card_id raw)) eqn:Ht; [right|by left].
    destruct (card_id raw) as [| | | |s| |] eqn:Hid;
      try (destruct (convert_record_untyped raw) as [e He];
           [by rewrite Hid | rewrite Hid; by intros [? [=]] | congruence]).
    split; [by eexists|].
    destruct (finite_numbers_dec raw) as [Hfin|(k & Hk & Hinf)]; [done|].
    rewrite (convert_record_overflow raw s) in Hentry; try done.
    + by apply truthy_str.
    + intros Hfin. by rewrite (Hfin k Hk) in Hinf.
  - intros [Ht|[[s Hid] Hfin]].
    + exists None. by apply convert_record_None.
    + destruct (String.eqb_spec s "") as [->|Hs].
      * exists None. apply convert_record_None. by rewrite Hid.
      * destruct (convert_record_total raw s Hid Hs Hfin) as [c Hc]. eauto.
Qed.

(** X11.  The Transformer returns a mapping exactly when every record
    either has no identifier to speak of (absent, empty or otherwise
    falsy) or has a string identifier and no infinite float among its four
    numeric fields; and when all identifiers are strings, the only
    exception that can escape is [OverflowError]. *)
Theorem transformer_raises_exactly (raw_cards : list raw) :
  ((∃ card_list, convert_to_tcg_arena raw_cards = Ok card_list) ↔
   Forall (λ r, Py.truthy (card_id r) = false ∨
                (is_str (card_id r) ∧ finite_numbers r)) raw_cards) ∧
  (Forall (λ r, is_str (card_id r)) raw_cards →
   ∀ e, convert_to_tcg_arena raw_cards = Raise e → e = OverflowError).
Proof.
  unfold convert_to_tcg_arena. generalize (@nil (string * card)).
  induction raw_cards as [|raw raw_cards IH]; intros acc; cbn [for_each].
  - split; [split; [by constructor | by eexists]|done].
  - destruct (IH acc) as [_ IHe]. split.
    + rewrite Forall_cons, <-convert_record_ok. unfold convert_step at 1. split.
      * intros (card_list & (acc' & (entry & Hentry & Hacc')%bind_ok & Hrest)
          %bind_ok).
        split; [by eexists|]. apply (IH acc'). by eexists.
      * intros [[entry Hentry] Hrest]. rewrite Hentry. cbn [bind].
        destruct entry as [[k c]|]; cbn [bind]; by apply IH.
    + intros [[s Hid] Hall]%Forall_cons e. unfold convert_step at 1.
      destruct (convert_record raw) as [entry|e'] eqn:Hentry; cbn [bind].
      * destruct entry as [[k c]|]; cbn [bind]; by apply IH.
      * intros [= <-].
        destruct (String.eqb_spec s "") as [->|Hs].
        { assert (convert_record raw = Ok None) as H; [|congruence].
          apply convert_record_None. by rewrite Hid. }
        destruct (finite_numbers_dec raw) as [Hfin|(k & Hk & Hinf)].
        { destruct (convert_record_total raw s Hid Hs Hfin). congruence. }
        rewrite (convert_record_overflow raw s) in Hentry; try done;
          [congruence|].
        intros Hfin. by rewrite (Hfin k Hk) in Hinf.
Qed.

Lemma transformer_raises_exactly_witness :
  (∃ card_list,
     convert_to_tcg_arena [Sample.anonymous; Sample.debt] = Ok card_list) ∧
  convert_to_tcg_arena [Sample.luffy; Sample.boundless] = Raise OverflowError.
Proof.
  split.
  - apply (proj1 (transformer_raises_exactly [Sample.anonymous; Sample.debt])).
    apply Forall_cons. split; [left; by vm_compute|].
    apply Forall_cons. split; [|constructor].
    right. split; [by eexists|].
    intros k Hk. unfold numeric_keys in Hk.
    repeat (apply elem_of_cons in Hk as [->|Hk]; [by vm_compute|]).
    by apply elem_of_nil in Hk.
  - destruct (convert_to_tcg_arena [Sample.luffy; Sample.boundless])
      as [card_list|e] eqn:E; [by vm_compute in E|].
    f_equal.
    apply (proj2 (transformer_raises_exactly [Sample.luffy; Sample.boundless]));
      [|done].
    repeat constructor; by eexists.
Defined.

(** ** The summary and the whole run *)

Lemma total_perm (l1 l2 : list Z) : l1 ≡ₚ l2 → total l1 = total l2.
Proof.
  induction 1 as [|x l1 l2 _ IH|x y l|l1 l2 l3 _ IH1 _ IH2];
    unfold total in *; simpl; lia.
Qed.

Lemma total_cons (x : Z) (l : list Z) : total (x :: l) = x + total l.
Proof. done. Qed.

Lemma incr_total (counts : list (value * Z)) (k : value) :
  total (incr counts k).*2 = total counts.*2 + 1.
Proof.
  induction counts as [|[k0 n0] counts IH]; [done|]. cbn [incr].
  destruct (Py.eqb k0 k); rewrite !fmap_cons, !total_cons; cbn [snd];
    [|rewrite IH]; lia.
Qed.

Lemma incr_positive (counts : list (value * Z)) (k : value) :
  Forall (λ item, 1 ≤ item.2) counts →
  Forall (λ item, 1 ≤ item.2) (incr counts k).
Proof.
  induction 1 as [|[k0 n0] counts H0 Hc IH]; simpl.
  - by repeat constructor.
  - destruct (Py.eqb k0 k); constructor; simpl in *; try done; lia.
Qed.

Lemma incr_keys (counts : list (value * Z)) (k : value) :
  Py.hashable k = true → NoDup counts.*1 → NoDup (incr counts k).*1.
Proof.
  intros Hk.
  assert (∀ counts, (incr counts k).*1 = counts.*1 ∨
    ((incr counts k).*1 = counts.*1 ++ [k] ∧
     Forall (λ k0, Py.eqb k0 k = false) counts.*1)) as Hkeys.
  { clear counts. induction counts as [|[k0 n0] counts IH]; cbn [incr].
    - right. by split.
    - destruct (Py.eqb k0 k) eqn:E; [by left|]. rewrite !fmap_cons. cbn [fst].
      destruct IH as [IH|[IH Hall]]; rewrite IH; [by left|right].
      split; [done|]. by constructor. }
  intros Hnd. destruct (Hkeys counts) as [->|[-> Hall]]; [done|].
  apply NoDup_app. split; [done|]. split; [|apply NoDup_singleton].
  intros k0 Hk0 ->%list_elem_of_singleton.
  rewrite Forall_forall in Hall. specialize (Hall k Hk0).
  by rewrite eqb_refl in Hall.
Qed.

(** The counts listed under the string [s]. *)
Lemma filter_eqb_cons {A} (f : A → value) (k : value) (x : A) (l : list A) :
  filter (λ y, Py.eqb (f y) k) (x :: l) =
  if Py.eqb (f x) k then x :: filter (λ y, Py.eqb (f y) k) l
  else filter (λ y, Py.eqb (f y) k) l.
Proof. rewrite filter_cons. by destruct (Py.eqb (f x) k). Qed.

Lemma incr_count (counts : list (value * Z)) (k : value) (s : string) :
  total (filter (λ item, Py.eqb item.1 (VStr s)) (incr counts k)).*2 =
  total (filter (λ item, Py.eqb item.1 (VStr s)) counts).*2
  + (if Py.eqb k (VStr s) then 1 else 0).
Proof.
  induction counts as [|[k0 n0] counts IH]; cbn [incr].
  - rewrite filter_eqb_cons, filter_nil. cbn [fst].
    by destruct (Py.eqb k (VStr s)).
  - destruct (Py.eqb k0 k) eqn:E; rewrite !filter_eqb_cons; cbn [fst].
    + destruct (Py.eqb k0 (VStr s)) eqn:E0.
      * apply eqb_str_r in E0 as ->. apply eqb_str_l in E as ->.
        rewrite (proj2 (eqb_str_l s (VStr s)) eq_refl).
        rewrite !fmap_cons, !total_cons. cbn [snd]. lia.
      * destruct (Py.eqb k (VStr s)) eqn:E1; [|lia].
        apply eqb_str_r in E1 as ->. congruence.
    + destruct (Py.eqb k0 (VStr s)); [|done].
      rewrite !fmap_cons, !total_cons, IH. lia.
Qed.

Lemma filter_key (counts : list (value * Z)) (s : string) (n : Z) :
  NoDup counts.*1 → (VStr s, n) ∈ counts →
  filter (λ item, Py.eqb item.1 (VStr s)) counts = [(VStr s, n)].
Proof.
  assert (∀ counts : list (value * Z), VStr s ∉ counts.*1 →
    filter (λ item, Py.eqb item.1 (VStr s)) counts = []) as Hnone.
  { clear. induction counts as [|[k1 n1] counts IH]; [done|].
    rewrite fmap_cons, not_elem_of_cons. intros [Hne Hk].
    rewrite filter_eqb_cons. cbn [fst].
    destruct (Py.eqb k1 (VStr s)) eqn:E; [|by apply IH].
    by apply eqb_str_r in E. }
  induction counts as [|[k0 n0] counts IH]; [by intros _ ?%elem_of_nil|].
  rewrite fmap_cons. intros [Hk0 Hnd]%NoDup_cons Hin.
  rewrite filter_eqb_cons. cbn [fst] in *.
  apply elem_of_cons in Hin as [[= <- <-]|Hin].
  - rewrite (proj2 (eqb_str_l s (VStr s)) eq_refl). by rewrite Hnone.
  - destruct (Py.eqb k0 (VStr s)) eqn:E; [|by apply IH].
    apply eqb_str_r in E as ->. exfalso. apply Hk0.
    by apply (list_elem_of_fmap_2 fst) in Hin.
Qed.

(** X12.  The table of card types the summary prints accounts for every
    card once: its keys are distinct, every count is at least one, the
    counts add up to the number of cards, and the count listed for a string
    type is the number of cards of that type. *)
Theorem type_table_accounts (py_sorted : sorter)
    (card_list : list (string * card)) (table : list (value * Z)) :
  sorter_spec py_sorted →
  summary py_sorted card_list = Ok table →
  NoDup table.*1 ∧
  Forall (λ item, 1 ≤ item.2) table ∧
  total table.*2 = Z.of_nat (length card_list) ∧
  ∀ s n, (VStr s, n) ∈ table →
    n = Z.of_nat (length
          (filter (λ kc, Py.eqb (type_ kc.2) (VStr s)) card_list)).
Proof.
  intros Hsorter. unfold summary.
  intros (counts & Hloop & Hsorted%(sorted_perm _ Hsorter))%bind_ok.
  assert (∀ acc,
    for_each (λ type_counts c,
      type_counts <- count type_counts (type_ c);;
      _ <- check_colors (Color c);; Ok type_counts) acc card_list.*2
      = Ok counts →
    NoDup acc.*1 → Forall (λ item, 1 ≤ item.2) acc →
    NoDup counts.*1 ∧ Forall (λ item, 1 ≤ item.2) counts ∧
    total counts.*2 = total acc.*2 + Z.of_nat (length card_list) ∧
    ∀ s, total (filter (λ item, Py.eqb item.1 (VStr s)) counts).*2 =
         total (filter (λ item, Py.eqb item.1 (VStr s)) acc).*2
         + Z.of_nat (length
             (filter (λ kc, Py.eqb (type_ kc.2) (VStr s)) card_list)))
    as Hinv.
  { clear Hloop Hsorted. induction card_list as [|[k c] card_list IH];
      intros acc; cbn [fmap list_fmap for_each].
    - intros [= <-] Hnd Hpos. repeat split; try done; simpl; intros; lia.
    - intros (acc' & (tc & Hcount & (u & _ & [= <-])%bind_ok)%bind_ok & Hrest)
        %bind_ok Hnd Hpos.
      unfold count in Hcount. simpl in Hcount.
      destruct (Py.hashable (type_ c)) eqn:Hh; [|done]. injection Hcount as <-.
      destruct (IH _ Hrest (incr_keys _ _ Hh Hnd) (incr_positive _ _ Hpos))
        as (Hnd' & Hpos' & Htot & Hcnt).
      split; [done|]. split; [done|]. split.
      + rewrite Htot, incr_total. simpl length. lia.
      + intros s.
        rewrite Hcnt, incr_count, (filter_eqb_cons (λ kc, type_ kc.2)).
        cbn [snd]. destruct (Py.eqb (type_ c) (VStr s)); simpl length; lia. }
  destruct (Hinv [] Hloop ltac:(constructor) ltac:(constructor))
    as (Hnd & Hpos & Htot & Hcnt).
  split; [by rewrite Hsorted|]. split; [by rewrite Hsorted|].
  split.
  { rewrite (total_perm table.*2 counts.*2) by (by rewrite Hsorted).
    rewrite Htot. done. }
  intros s n Hin. rewrite Hsorted in Hin.
  specialize (Hcnt s). rewrite (filter_key _ _ _ Hnd Hin) in Hcnt.
  unfold total in Hcnt. simpl in Hcnt. lia.
Qed.

Lemma type_table_accounts_witness :
  NoDup [VStr "Character"; VStr "Leader"; VStr "Stage"] ∧
  Forall (λ item : value * Z, 1 ≤ item.2)
    [(VStr "Character", 1); (VStr "Leader", 2); (VStr "Stage", 1)] ∧
  total [1; 2; 1] = Z.of_nat (length Scenario.cards) ∧
  ∀ s n,
    (VStr s, n) ∈ [(VStr "Character", 1); (VStr "Leader", 2); (VStr "Stage", 1)] →
    n = Z.of_nat (length
          (filter (λ kc, Py.eqb (type_ kc.2) (VStr s)) Scenario.cards)).
Proof.
  apply (type_table_accounts Insertion.sorted Scenario.cards
    [(VStr "Character", 1); (VStr "Leader", 2); (VStr "Stage", 1)]
    insertion_sorter_spec).
  vm_compute. reflexivity.
Defined.

Lemma Forall2_elem_of_l {A B} (P : A → B → Prop) (l : list A) (k : list B)
    (x : A) :
  Forall2 P l k → x ∈ l → ∃ y, y ∈ k ∧ P x y.
Proof.
  induction 1 as [|a b l k Hab _ IH]; [by intros ?%elem_of_nil|].
  intros [->|Hx]%elem_of_cons; [exists b; split; [by left|done]|].
  destruct (IH Hx) as (y & Hy & Hxy). exists y. split; [by right|done].
Qed.

Lemma Forall2_elem_of_r {A B} (P : A → B → Prop) (l : list A) (k : list B)
    (y : B) :
  Forall2 P l k → y ∈ k → ∃ x, x ∈ l ∧ P x y.
Proof.
  induction 1 as [|a b l k Hab _ IH]; [by intros ?%elem_of_nil|].
  intros [->|Hy]%elem_of_cons; [exists a; split; [by left|done]|].
  destruct (IH Hy) as (x & Hx & Hxy). exists x. split; [by right|done].
Qed.

(** What [main] leaves behind, case by case. *)
Lemma main_outcomes (py_sorted : sorter) (net : network) :
  sorter_spec py_sorted →
  (exit_status (main py_sorted net) = 0 ∨
   exit_status (main py_sorted net) = 1) ∧
  (exit_status (main py_sorted net) = 0 →
   ∃ card_list, written (main py_sorted net) = Some card_list) ∧
  ∀ card_list, written (main py_sorted net) = Some card_list →
    Json.dump card_list = Ok () ∧
    ∃ raw_cards,
      fetch_all_cards net = Ok raw_cards ∧ raw_cards ≠ [] ∧
      length card_list = length raw_cards ∧
      NoDup card_list.*1 ∧
      (∀ r, r ∈ raw_cards → ∃ kc, kc ∈ card_list ∧
         convert_record r = Ok (Some kc)) ∧
      (∀ kc, kc ∈ card_list → ∃ r, r ∈ raw_cards ∧
         convert_record r = Ok (Some kc)).
Proof.
  intros Hsorter. unfold main.
  assert ((1 = 0 ∨ 1 = 1) ∧
    (1 = 0 → ∃ card_list : list (string * card), None = Some card_list) ∧
    ∀ card_list : list (string * card), None = Some card_list →
      Json.dump card_list = Ok () ∧
      ∃ raw_cards, fetch_all_cards net = Ok raw_cards ∧ raw_cards ≠ [] ∧
        length card_list = length raw_cards ∧ NoDup card_list.*1 ∧
        (∀ r, r ∈ raw_cards → ∃ kc, kc ∈ card_list ∧
           convert_record r = Ok (Some kc)) ∧
        (∀ kc, kc ∈ card_list → ∃ r, r ∈ raw_cards ∧
           convert_record r = Ok (Some kc))) as Hcrash.
  { split; [by right|]. split; [by intros [=]|by intros ? [=]]. }
  destruct (fetch_all_cards net) as [[|r raw_cards]|e] eqn:Hfetch;
    [exact Hcrash| |exact Hcrash].
  destruct (py_sorted raw sort_key (r :: raw_cards)) as [sorted|e] eqn:Hsorted;
    [|exact Hcrash].
  destruct (convert_to_tcg_arena sorted) as [card_list|e] eqn:Hconv;
    [|exact Hcrash].
  destruct (Json.dump card_list) as [[]|e] eqn:Hdump; [|exact Hcrash].
  clear Hcrash.
  assert (∃ raws, fetch_all_cards net = Ok raws ∧ raws ≠ [] ∧
    length card_list = length raws ∧ NoDup card_list.*1 ∧
    (∀ r, r ∈ raws → ∃ kc, kc ∈ card_list ∧ convert_record r = Ok (Some kc)) ∧
    (∀ kc, kc ∈ card_list → ∃ r, r ∈ raws ∧ convert_record r = Ok (Some kc)))
    as Hwritten.
  { exists (r :: raw_cards). split; [done|]. split; [done|].
    pose proof (sorted_perm _ Hsorter _ _ _ _ Hsorted) as Hperm.
    rewrite fetch_all_cards_collect in Hfetch.
    apply collect_inv in Hfetch as (rs & st & _ & Hinv & Hout).
    destruct (convert_distinct sorted [] card_list Hconv)
      as (d' & -> & Hd').
    - rewrite Hperm, Hout. apply Hinv.
    - rewrite Hperm, Hout. apply Forall_forall. intros r' Hr'.
      by apply (inv_kept _ _ Hinv).
    - intros r' k _ _ []%elem_of_nil.
    - simpl. split; [by rewrite <-(Forall2_length _ _ _ Hd'), Hperm|].
      split; [apply (convert_keys _ _ _ Hconv); constructor|].
      split.
      + intros r' Hr'. rewrite <-Hperm in Hr'.
        by apply (Forall2_elem_of_l _ _ _ _ Hd').
      + intros kc Hkc. destruct (Forall2_elem_of_r _ _ _ _ Hd' Hkc)
          as (r' & Hr' & Hrec).
        exists r'. by rewrite <-Hperm. }
  rewrite Hfetch in Hwritten.
  destruct (summary py_sorted card_list) as [table|e]; simpl.
  - split; [by left|]. split; [by eexists|]. by intros ? [= <-].
  - split; [by right|]. split; [done|]. by intros ? [= <-].
Qed.

Lemma main_dump_fails (py_sorted : sorter) (net : network)
    (raw_cards sorted : list raw) (card_list : list (string * card)) (e : exn) :
  fetch_all_cards net = Ok raw_cards →
  py_sorted _ sort_key raw_cards = Ok sorted →
  convert_to_tcg_arena sorted = Ok card_list →
  Json.dump card_list = Raise e →
  main py_sorted net = {| exit_status := 1; written := None |}.
Proof.
  intros Hfetch Hsorted Hconv Hdump. unfold main. rewrite Hfetch.
  destruct raw_cards; [done|]. by rewrite Hsorted, Hconv, Hdump.
Qed.

(** X13.  A run ends with status 0 or 1, and with 0 only after writing the
    file.  When [json.dump] raises, on a lone surrogate or on an integer
    beyond the digit limit, the run ends with status 1 and the file does
    not count as written.  Whenever the file is written, with any sort that
    returns a rearrangement, [json.dump] got through, the file holds one
    entry per collected record, no more and no fewer, each the card of its
    record, and the collection was not empty. *)
Theorem main_writes_every_card (py_sorted : sorter) (net : network) :
  sorter_spec py_sorted →
  (exit_status (main py_sorted net) = 0 ∨
   exit_status (main py_sorted net) = 1) ∧
  (exit_status (main py_sorted net) = 0 →
   ∃ card_list, written (main py_sorted net) = Some card_list) ∧
  (∀ raw_cards sorted card_list e,
     fetch_all_cards net = Ok raw_cards →
     py_sorted _ sort_key raw_cards = Ok sorted →
     convert_to_tcg_arena sorted = Ok card_list →
     Json.dump card_list = Raise e →
     main py_sorted net = {| exit_status := 1; written := None |}) ∧
  ∀ card_list, written (main py_sorted net) = Some card_list →
    Json.dump card_list = Ok () ∧
    ∃ raw_cards,
      fetch_all_cards net = Ok raw_cards ∧ raw_cards ≠ [] ∧
      length card_list = length raw_cards ∧
      NoDup card_list.*1 ∧
      (∀ r, r ∈ raw_cards → ∃ kc, kc ∈ card_list ∧
         convert_record r = Ok (Some kc)) ∧
      (∀ kc, kc ∈ card_list → ∃ r, r ∈ raw_cards ∧
         convert_record r = Ok (Some kc)).
Proof.
  intros Hsorter.
  destruct (main_outcomes py_sorted net Hsorter) as (Hstatus & Hzero & Hwritten).
  split; [exact Hstatus|]. split; [exact Hzero|]. split; [|exact Hwritten].
  intros raw_cards sorted card_list e. apply main_dump_fails.
Qed.

Lemma main_writes_every_card_witness :
  (exit_status (main Insertion.sorted
     (Sample.bulk_only [VDict Sample.stage; VDict Sample.luffy])) = 0 ∨
   exit_status (main Insertion.sorted
     (Sample.bulk_only [VDict Sample.stage; VDict Sample.luffy])) = 1) ∧
  (∃ card_list,
     written (main Insertion.sorted
       (Sample.bulk_only [VDict Sample.stage; VDict Sample.luffy]))
       = Some card_list) ∧
  ∃ raw_cards,
    fetch_all_cards (Sample.bulk_only [VDict Sample.stage; VDict Sample.luffy])
      = Ok raw_cards ∧ raw_cards ≠ [] ∧
    2%nat = length raw_cards.
Proof.
  destruct (main_writes_every_card Insertion.sorted
    (Sample.bulk_only [VDict Sample.stage; VDict Sample.luffy])
    insertion_sorter_spec) as (Hstatus & Hzero & _ & Hwritten).
  split; [exact Hstatus|]. split; [apply Hzero; vm_compute; reflexivity|].
  destruct (Hzero ltac:(vm_compute; reflexivity)) as [card_list Hcards].
  destruct (Hwritten card_list Hcards) as (_ & raw_cards & Hf & Hne & Hlen & _).
  exists raw_cards. split; [done|]. split; [done|]. rewrite <-Hlen.
  vm_compute in Hcards. injection Hcards as <-. reflexivity.
Defined.

(** ** The set table *)

Lemma filter_bool_cons {A} (P : A → bool) (x : A) (l : list A) :
  filter (λ y, P y) (x :: l) =
  if P x then x :: filter (λ y, P y) l else filter (λ y, P y) l.
Proof. rewrite filter_cons. by destruct (P x). Qed.

Lemma filter_snd_length {K A} (l : list (K * A)) (P : A → bool) :
  length (filter (λ c, P c) l.*2) = length (filter (λ kc : K * A, P kc.2) l).
Proof.
  induction l as [|[k c] l IH]; [done|].
  rewrite fmap_cons, (filter_bool_cons P),
    (filter_bool_cons (λ kc : K * A, P kc.2)). cbn [snd].
  destruct (P c); simpl; by rewrite IH.
Qed.

Lemma tally_inv (cards : list card) (types0 sets0 types sets : list (value * Z)) :
  for_each (λ tables c,
      type_counts <- count tables.1 (type_ c);;
      _ <- check_colors (Color c);;
      set_counts <- (if Py.truthy (Set_ c) then count tables.2 (Set_ c)
                     else Ok tables.2);;
      Ok (type_counts, set_counts)) (types0, sets0) cards = Ok (types, sets) →
  NoDup sets0.*1 → Forall (λ item, 1 ≤ item.2) sets0 →
  for_each (λ type_counts c,
      type_counts <- count type_counts (type_ c);;
      _ <- check_colors (Color c);; Ok type_counts) types0 cards = Ok types ∧
  NoDup sets.*1 ∧ Forall (λ item, 1 ≤ item.2) sets ∧
  total sets.*2 = total sets0.*2
    + Z.of_nat (length (filter (λ c, Py.truthy (Set_ c)) cards)) ∧
  ∀ code, code ≠ EmptyString →
    total (filter (λ item, Py.eqb item.1 (VStr code)) sets).*2 =
    total (filter (λ item, Py.eqb item.1 (VStr code)) sets0).*2
    + Z.of_nat (length (filter (λ c, Py.eqb (Set_ c) (VStr code)) cards)).
Proof.
  revert types0 sets0.
  induction cards as [|c cards IH]; intros types0 sets0; cbn [for_each].
  - intros [= <- <-] Hnd Hpos. repeat split; try done; simpl; intros; lia.
  - intros ([types1 sets1] & Hstep & Hrest)%bind_ok Hnd Hpos.
    cbn [fst snd] in Hstep.
    apply bind_ok in Hstep as (types1' & Htypes & Hstep).
    apply bind_ok in Hstep as (u & Hcolors & Hstep).
    apply bind_ok in Hstep as (sets1' & Hsets & [= <- <-]).
    rewrite Htypes. cbn [bind]. rewrite Hcolors. cbn [bind].
    destruct (Py.truthy (Set_ c)) eqn:Ht.
    + unfold count in Hsets.
      destruct (Py.hashable (Set_ c)) eqn:Hh; [|done]. injection Hsets as <-.
      destruct (IH _ _ Hrest (incr_keys _ _ Hh Hnd) (incr_positive _ _ Hpos))
        as (Hloop & Hnd' & Hpos' & Htot & Hcnt).
      split; [done|]. split; [done|]. split; [done|]. split.
      * rewrite Htot, incr_total, (filter_bool_cons (λ c, Py.truthy (Set_ c))), Ht.
        simpl length. lia.
      * intros code Hcode.
        rewrite (Hcnt code Hcode), incr_count, (filter_eqb_cons Set_).
        destruct (Py.eqb (Set_ c) (VStr code)); simpl length; lia.
    + injection Hsets as <-.
      destruct (IH _ _ Hrest Hnd Hpos) as (Hloop & Hnd' & Hpos' & Htot & Hcnt).
      split; [done|]. split; [done|]. split; [done|]. split.
      * by rewrite Htot, (filter_bool_cons (λ c, Py.truthy (Set_ c))), Ht.
      * intros code Hcode. rewrite (Hcnt code Hcode), (filter_eqb_cons Set_).
        destruct (Py.eqb (Set_ c) (VStr code)) eqn:E; [|done].
        apply eqb_str_r in E. rewrite E in Ht.
        apply truthy_str in Hcode. congruence.
Qed.

(** X14.  The set table of the summary counts every card with a non-empty
    group code once, under its group code: its keys are distinct, its
    counts add up to the number of cards whose group code is not empty, and
    the count listed for a group code is the number of cards with that
    code.  Its type table is the one the summary sorts and prints. *)
Theorem set_table_accounts (card_list : list (string * card))
    (types sets : list (value * Z)) :
  tally card_list = Ok (types, sets) →
  (∀ py_sorted : sorter,
     summary py_sorted card_list
     = py_sorted _ (λ item, [item.1; VInt item.2]) types) ∧
  NoDup sets.*1 ∧
  Forall (λ item, 1 ≤ item.2) sets ∧
  total sets.*2
    = Z.of_nat (length (filter (λ kc, Py.truthy (Set_ kc.2)) card_list)) ∧
  ∀ code n, (VStr code, n) ∈ sets →
    code ≠ EmptyString ∧
    n = Z.of_nat (length
          (filter (λ kc, Py.eqb (Set_ kc.2) (VStr code)) card_list)).
Proof.
  unfold tally. intros Htally.
  destruct (tally_inv _ _ _ _ _ Htally ltac:(constructor) ltac:(constructor))
    as (Hloop & Hnd & Hpos & Htot & Hcnt).
  pose proof (filter_snd_length card_list) as Hlen.
  split; [intros py_sorted; unfold summary; by rewrite Hloop|].
  split; [done|]. split; [done|]. split.
  { rewrite Htot, (Hlen (λ c, Py.truthy (Set_ c))).
    change (total [].*2) with 0. lia. }
  assert (∀ cards types0 sets0 types' sets',
    for_each (λ tables c,
      type_counts <- count tables.1 (type_ c);;
      _ <- check_colors (Color c);;
      set_counts <- (if Py.truthy (Set_ c) then count tables.2 (Set_ c)
                     else Ok tables.2);;
      Ok (type_counts, set_counts)) (types0, sets0) cards = Ok (types', sets') →
    Forall (λ item, Py.truthy item.1 = true) sets0 →
    Forall (λ item : value * Z, Py.truthy item.1 = true) sets') as Htruthy.
  { clear. induction cards as [|c cards IH]; intros types0 sets0 types' sets';
      cbn [for_each]; [by intros [= <- <-]|].
    intros ([types1 sets1] & Hstep & Hrest)%bind_ok Hall.
    cbn [fst snd] in Hstep.
    apply bind_ok in Hstep as (types1' & _ & Hstep).
    apply bind_ok in Hstep as (u & _ & Hstep).
    apply bind_ok in Hstep as (sets1' & Hsets & [= <- <-]).
    apply (IH _ _ _ _ Hrest).
    destruct (Py.truthy (Set_ c)) eqn:Ht; [|by injection Hsets as <-].
    unfold count in Hsets. destruct (Py.hashable (Set_ c)); [|done].
    injection Hsets as <-. clear -Hall Ht.
    induction Hall as [|[k0 n0] sets0 H0 Hall IH]; cbn [incr].
    - by repeat constructor.
    - destruct (Py.eqb k0 (Set_ c)); by constructor. }
  intros code n Hin.
  assert (code ≠ EmptyString) as Hcode.
  { pose proof (Htruthy _ _ _ _ _ Htally ltac:(constructor)) as Hall.
    rewrite Forall_forall in Hall. apply (Hall _) in Hin. by apply truthy_str. }
  split; [done|].
  specialize (Hcnt code Hcode). rewrite (filter_key _ _ _ Hnd Hin) in Hcnt.
  rewrite filter_nil, (Hlen (λ c, Py.eqb (Set_ c) (VStr code))) in Hcnt.
  change (total [].*2) with 0 in Hcnt.
  change (total [(VStr code, n)].*2) with (n + 0) in Hcnt. lia.
Qed.

Lemma set_table_accounts_witness :
  (∀ py_sorted : sorter,
     summary py_sorted Scenario.cards
     = py_sorted _ (λ item, [item.1; VInt item.2])
         [(VStr "Leader", 2); (VStr "Stage", 1); (VStr "Character", 1)]) ∧
  NoDup [VStr "OP01"; VStr "PROMO"] ∧
  Forall (λ item : value * Z, 1 ≤ item.2) [(VStr "OP01", 3); (VStr "PROMO", 1)] ∧
  total [3; 1]
    = Z.of_nat (length
        (filter (λ kc, Py.truthy (Set_ kc.2)) Scenario.cards)) ∧
  ∀ code n, (VStr code, n) ∈ [(VStr "OP01", 3); (VStr "PROMO", 1)] →
    code ≠ EmptyString ∧
    n = Z.of_nat (length
          (filter (λ kc, Py.eqb (Set_ kc.2) (VStr code)) Scenario.cards)).
Proof.
  apply (set_table_accounts Scenario.cards
    [(VStr "Leader", 2); (VStr "Stage", 1); (VStr "Character", 1)]
    [(VStr "OP01", 3); (VStr "PROMO", 1)]).
  vm_compute. reflexivity.
Defined.

(** X15.  The group code of a transformed record is empty exactly when the
    identifier begins with its only ["-"]; it is a string in every case,
    and when it is empty the set table passes the card over. *)
Theorem empty_group_code (raw : raw) (key : string) (c : card) :
  convert_record raw = Ok (Some (key, c)) →
  is_str (Set_ c) ∧
  (Py.truthy (Set_ c) = false ↔
   ∃ suf, key = "-" +:+ suf ∧ ¬ occurs "-" suf) ∧
  (Py.truthy (Set_ c) = false →
   ∀ types sets, tally [(key, c)] = Ok (types, sets) → sets = []).
Proof.
  intros Hc. destruct (convert_record_key _ _ _ Hc) as [Hid Hne].
  apply convert_record_Some in Hc as (_ & _ & Hset & _).
  unfold card_id, Py.get in Hset. rewrite Hid, set_code_of_str in Hset.
  injection Hset as Hset. split; [by eexists|]. split.
  - rewrite <-Hset. unfold Py.rsplit1.
    destruct (Py.rcut "-" key) as [[pre suf]|] eqn:R; cbn [hd].
    + apply rcut_Some in R as [-> Hsuf]. split.
      * intros Ht. exists suf.
        destruct pre as [|a pre]; [done|]. simpl in Ht. done.
      * intros (suf' & Heq & Hsuf'). destruct pre as [|a pre]; [done|].
        exfalso. injection Heq as -> Heq.
        apply Hsuf'. exists pre, suf. symmetry. exact Heq.
    + apply rcut_None in R. split.
      * intros Ht. exfalso. apply Hne.
        simpl in Ht. apply negb_false_iff, String.eqb_eq in Ht. done.
      * intros (suf & -> & _). exfalso. apply R. by exists EmptyString, suf.
  - intros Ht types sets. unfold tally. cbn [fmap list_fmap for_each].
    intros ([types1 sets1] & Hstep & [= <- <-])%bind_ok.
    cbn [fst snd] in Hstep.
    apply bind_ok in Hstep as (types1' & _ & Hstep).
    apply bind_ok in Hstep as (u & _ & Hstep).
    rewrite Ht in Hstep. cbn [bind] in Hstep. by injection Hstep as _ <-.
Qed.

Lemma empty_group_code_witness :
  ∃ c,
    convert_record Scenario.dashed = Ok (Some ("-077"%string, c)) ∧
    is_str (Set_ c) ∧
    (Py.truthy (Set_ c) = false ↔
     ∃ suf, ("-077"%string) = "-" +:+ suf ∧ ¬ occurs "-" suf) ∧
    (Py.truthy (Set_ c) = false →
     ∀ types sets, tally [("-077"%string, c)] = Ok (types, sets) → sets = []).
Proof.
  eexists. split; [vm_compute; reflexivity|].
  apply (empty_group_code Scenario.dashed). vm_compute. reflexivity.
Defined.
